(** * sunrise-calculator: the NumberInput field and the form's navigation

    A shallow embedding of [NumberInput.js] (the numeric field: separator
    formatting, formula evaluation, range validation, wheel stepping) and of
    the navigation handler of [App.js], with the properties the
    specification states about them.

    The source holds two revisions of the field. The one that forwards its
    ref (with the wheel handler, the empty-buffer guard and the queued
    focus) is the component the form mounts and is modelled in full; of the
    earlier one, which keeps its own ref, the blur handler is modelled in
    [Legacy] for comparison.

    Layout: JavaScript text and the two separator helpers; the platform the
    component runs on (numbers, mathjs) as type classes; the handlers of the
    field; the earlier blur handler; the form's navigation; a reference
    platform on IEEE binary64 that runs the handlers; the specification's
    own terms; then the theorems. *)

From Stdlib Require Import ZArith NArith List Bool Ascii String Lia Floats.
Import ListNotations.

(** ** JavaScript strings

    A JavaScript string is a sequence of UTF-16 code units; the regular
    expressions of the component carry no [u] flag, so they work on code
    units as well. *)

Definition jsstring := list N.

Definition str (s : string) : jsstring :=
  map N_of_ascii (list_ascii_of_string s).

Module Ch.
Definition space : N := 32.
Definition plus : N := 43.
Definition minus : N := 45.
Definition dot : N := 46.
Definition zero : N := 48.
Definition equals : N := 61.
Definition upperE : N := 69.
Definition lowerE : N := 101.
End Ch.

(** [\d] *)
Definition isDigit (c : N) : bool :=
  (48 <=? c)%N && (c <=? 57)%N.

(** [\w]: ASCII letters, digits and the underscore. *)
Definition isWordChar (c : N) : bool :=
  isDigit c
  || ((65 <=? c)%N && (c <=? 90)%N)
  || ((97 <=? c)%N && (c <=? 122)%N)
  || (c =? 95)%N.

(** [\s]: WhiteSpace and LineTerminator of ECMAScript. *)
Definition isWhiteSpace (c : N) : bool :=
  ((9 <=? c)%N && (c <=? 13)%N)
  || (c =? 32)%N
  || (c =? 160)%N
  || (c =? 5760)%N
  || ((8192 <=? c)%N && (c <=? 8202)%N)
  || (c =? 8232)%N
  || (c =? 8233)%N
  || (c =? 8239)%N
  || (c =? 8287)%N
  || (c =? 12288)%N
  || (c =? 65279)%N.

Definition jsstring_eqb (a b : jsstring) : bool :=
  if list_eq_dec N.eq_dec a b then true else false.

(** [s.startsWith(c)] for a one-unit string [c]. *)
Definition startsWith (s : jsstring) (c : N) : bool :=
  match s with
  | x :: _ => (x =? c)%N
  | [] => false
  end.

(** [s.split(sep)] for a one-unit separator: never an empty array. *)
Fixpoint split (sep : N) (s : jsstring) : list jsstring :=
  match s with
  | [] => [[]]
  | c :: rest =>
      if (c =? sep)%N then [] :: split sep rest
      else match split sep rest with
           | p :: ps => (c :: p) :: ps
           | [] => [[c]]
           end
  end.

(** [parts.join(sep)]. *)
Fixpoint join (sep : N) (parts : list jsstring) : jsstring :=
  match parts with
  | [] => []
  | p :: ps =>
      p ++ match ps with
           | [] => []
           | _ :: _ => sep :: join sep ps
           end
  end.

(** *** The pattern [/\B(?=(\d{3})+(?!\d))/g]

    The pattern consumes nothing: it holds or fails at each position of the
    subject, and a global [replace] visits every position from 0 to the
    length once. A position is described by the unit before it (none at the
    start) and the text after it. *)

Definition wordAt (c : option N) : bool :=
  match c with
  | Some x => isWordChar x
  | None => false
  end.

(** [\B]: both sides are word characters or neither is. *)
Definition nonWordBoundary (before after : option N) : bool :=
  Bool.eqb (wordAt before) (wordAt after).

Definition nextIsDigit (s : jsstring) : bool :=
  match s with
  | c :: _ => isDigit c
  | [] => false
  end.

(** [(\d{3})+(?!\d)] anchored at the head of [s]: one group of three
    digits, then either more groups or the negative lookahead. *)
Fixpoint digitTriples (s : jsstring) : bool :=
  match s with
  | a :: b :: c :: rest =>
      isDigit a && isDigit b && isDigit c
      && (digitTriples rest || negb (nextIsDigit rest))
  | _ => false
  end.

Definition patternHolds (before : option N) (s : jsstring) : bool :=
  nonWordBoundary before (hd_error s) && digitTriples s.

(** [s.replace(/\B(?=(\d{3})+(?!\d))/g, ' ')]. *)
Fixpoint replaceGroupBoundaries (before : option N) (s : jsstring) : jsstring :=
  (if patternHolds before s then [Ch.space] else [])
  ++ match s with
     | [] => []
     | c :: rest => c :: replaceGroupBoundaries (Some c) rest
     end.

(** ** The separator helpers of NumberInput.js *)

(** [parts[0]] of an array that [split] returned is always there; the
    empty-array branch stands for the unreachable [undefined.replace]. *)
Definition addThousandsSeparators (numStr : jsstring) : jsstring :=
  match split Ch.dot numStr with
  | [] => []
  | p0 :: ps => join Ch.dot (replaceGroupBoundaries None p0 :: ps)
  end.

(** [numStr.replace(/\s/g, '')]. *)
Definition removeThousandsSeparators (numStr : jsstring) : jsstring :=
  filter (fun c => negb (isWhiteSpace c)) numStr.

(** ** The platform the component runs on

    Numbers are IEEE doubles and the formula evaluator is the mathjs
    library; the component only calls them, so the model takes them as
    interfaces. [Binary64] below implements the first on binary64 floats. *)

Class JSNumber (num : Type) := {
  (** an integer literal of the source text *)
  lit : Z -> num;
  NaN : num;
  parseFloat : jsstring -> num;
  (** [parseInt(s, 10)] *)
  parseInt10 : jsstring -> num;
  isNaN : num -> bool;
  (** [x < y]; the source's [x > y] is [lessThan y x] *)
  lessThan : num -> num -> bool;
  plus : num -> num -> num;
  minus : num -> num -> num;
  (** truthiness of a number, as [||] tests it *)
  toBoolean : num -> bool;
  (** [x.toFixed(digits)]; [None] when it throws a RangeError *)
  toFixed : num -> num -> option jsstring
}.

Class MathJS (num : Type) := {
  (** what [evaluate] may return: a number, a BigNumber, a matrix, ... *)
  mathValue : Type;
  (** [evaluate(expr)]; [None] when it throws *)
  evaluate : jsstring -> option mathValue;
  (** [result.toFixed(decimals)]; [None] when the call throws, also because
      the result has no such method *)
  resultToFixed : mathValue -> num -> option jsstring
}.

(** ** The field: props, state and what a handler does *)

Record Props := {
  min : jsstring;
  max : jsstring;
  step : jsstring;
  dec : jsstring;
  id : string;
  (** whether an [onChange] callback was passed *)
  onChange : bool
}.

Record State := {
  value : jsstring;
  error : bool
}.

(** A handler runs against the props and state of the current render; its
    calls to the state setters, to the callbacks and to the DOM are
    recorded in program order. [FocusLater] is
    [setTimeout(() => ref.current.focus(), 0)], [Focus] the immediate
    [inputRef.current.focus()] of the earlier revision, [Blur] is
    [e.target.blur()], and [Throw] the RangeError of a [toFixed] outside
    any [try], which ends the handler. *)
Inductive action :=
| SetValue (s : jsstring)
| SetError (b : bool)
| OnChange (formatted : jsstring)
| FocusLater
| Focus
| Blur
| PreventDefault
| SetSelectionRange (selStart selEnd : nat)
| NavigateToField (direction : string) (fieldId : string)
| Throw.

Definition apply (st : State) (a : action) : State :=
  match a with
  | SetValue s => {| value := s; error := error st |}
  | SetError b => {| value := value st; error := b |}
  | _ => st
  end.

(** The state after the setter calls of a log, in order. For the log of
    one handler this is the state of the next render, unless the log holds
    a [Blur]: [e.target.blur()] makes the browser run the blur handler at
    once, which [dispatchKeyDown] below adds to the log. *)
Definition commit (st : State) (log : list action) : State :=
  fold_left apply log st.

Definition setsError (a : action) : bool :=
  match a with
  | SetError _ => true
  | _ => false
  end.

Definition isFocus (a : action) : bool :=
  match a with
  | FocusLater | Focus => true
  | _ => false
  end.

Definition isOnChange (a : action) : bool :=
  match a with
  | OnChange _ => true
  | _ => false
  end.

Definition setsValue (a : action) : bool :=
  match a with
  | SetValue _ => true
  | _ => false
  end.

Record KeyEvent := {
  key : string;
  selectionStart : nat;
  ctrlKey : bool;
  metaKey : bool
}.

Definition includes (l : list string) (k : string) : bool :=
  existsb (String.eqb k) l.

Definition isNull {A : Type} (o : option A) : bool :=
  match o with
  | None => true
  | Some _ => false
  end.

Definition allowedChars : list string :=
  ["0"; "1"; "2"; "3"; "4"; "5"; "6"; "7"; "8"; "9"; "."; ","; "="; "-";
   "+"; "/"; "*"; "("; ")"]%string.

Definition controlKeys : list string :=
  ["Backspace"; "Delete"; "ArrowLeft"; "ArrowRight"; "ArrowUp";
   "ArrowDown"]%string.

Definition arrowKeys : list string :=
  ["ArrowLeft"; "ArrowRight"; "ArrowUp"; "ArrowDown"]%string.

(** ** NumberInput.js, the forwardRef revision *)

Section NumberInput.
Context {num : Type} {JS : JSNumber num} {MJ : MathJS num}.
Variable props : Props.
Variable state : State.

(** [dec === '*' ? 2 : parseInt(dec, 10)] *)
Definition decimals : num :=
  if jsstring_eqb (dec props) (str "*") then lit 2
  else parseInt10 (dec props).

(** [null] is [None]: the [catch] covers [evaluate] and [toFixed]. *)
Definition evaluateFormula (input : jsstring) : option jsstring :=
  if startsWith input Ch.equals then
    match evaluate (tl input) with
    | Some result => resultToFixed result decimals
    | None => None
    end
  else Some input.

Definition minNum : num :=
  if negb (jsstring_eqb (min props) (str "*")) then parseFloat (min props)
  else NaN.

Definition maxNum : num :=
  if negb (jsstring_eqb (max props) (str "*")) then parseFloat (max props)
  else NaN.

(** The argument of [setError] in [validateMinMax]. *)
Definition outOfRange (n : num) : bool :=
  (negb (isNaN minNum) && lessThan n minNum)
  || (negb (isNaN maxNum) && lessThan maxNum n).

Definition validateMinMax (n : num) : list action :=
  [SetError (outOfRange n)].

(** The tail shared by [handleBlur] and [handleWheel]: format, write
    back, notify. [toFixed] is called outside any [try]. *)
Definition formatAndStore (n : num) : list action :=
  match toFixed n decimals with
  | None => [Throw]
  | Some digits =>
      let formatted := addThousandsSeparators digits in
      SetValue formatted
      :: (if onChange props then [OnChange formatted] else [])
  end.

Definition handleKeyDown (e : KeyEvent) : list action :=
  if String.eqb (key e) "," then
    [PreventDefault; SetValue (value state ++ [Ch.dot])]
  else if String.eqb (key e) "=" && negb (selectionStart e =? 0) then
    [PreventDefault]
  else if includes ["Tab"; "Enter"]%string (key e) then
    [PreventDefault; Blur]
  else if negb (includes allowedChars (key e))
          && negb (includes controlKeys (key e))
          && negb (ctrlKey e || metaKey e) then
    [PreventDefault]
  else if includes arrowKeys (key e) then
    let navigation :=
      if String.eqb (key e) "ArrowUp" then Some "prev"%string
      else if String.eqb (key e) "ArrowDown" then Some "next"%string
      else if String.eqb (key e) "ArrowLeft" && (selectionStart e =? 0)
      then Some "prev"%string
      else if String.eqb (key e) "ArrowRight"
              && (selectionStart e =? List.length (value state))
      then Some "next"%string
      else None in
    match navigation with
    | Some navDirection =>
        [PreventDefault; NavigateToField navDirection (id props)]
    | None => []
    end
  else [].


Definition handleFocus : list action :=
  let raw := removeThousandsSeparators (value state) in
  [SetValue raw; SetSelectionRange 0 0].

Definition handleBlur : list action :=
  if jsstring_eqb (value state) [] then []
  else
    let processed := removeThousandsSeparators (value state) in
    SetError false
    :: (let evaluated := evaluateFormula processed in
        if startsWith processed Ch.equals && isNull evaluated then
          [SetError true; FocusLater]
        else
          let processed :=
            match evaluated with
            | Some s => s
            | None => str "null"
            end in
          let n := parseFloat processed in
          validateMinMax n ++ formatAndStore n).

(** [deltaY] is the wheel event's vertical delta. *)
Definition handleWheel (deltaY : num) : list action :=
  PreventDefault
  :: (if jsstring_eqb (step props) (str "*") then []
      else
        let parsed := parseFloat (removeThousandsSeparators (value state)) in
        let current := if toBoolean parsed then parsed else lit 0 in
        let stepValue := parseFloat (step props) in
        let newValue :=
          if lessThan deltaY (lit 0) then plus current stepValue
          else minus current stepValue in
        validateMinMax newValue ++ formatAndStore newValue).

End NumberInput.

(** A key press as the browser runs it. The input is rendered with
    [onKeyDown={handleKeyDown}] and [onBlur={handleBlur}], and
    [e.target.blur()] dispatches the blur event before it returns: the
    calls of [handleBlur], made against the same render, follow the [Blur]
    in the log. *)
Definition dispatchKeyDown {num : Type} {JS : JSNumber num} {MJ : MathJS num}
    (props : Props) (state : State) (e : KeyEvent) : list action :=
  flat_map (fun a => match a with
                     | Blur => Blur :: handleBlur props state
                     | _ => [a]
                     end) (handleKeyDown props state e).

(** ** NumberInput.js, the earlier revision with its own ref

    [decimals], [evaluateFormula] and the separator helpers are the same
    text; [validateMinMax] returns its verdict and [handleBlur] keeps the
    focus on every failure. *)

Module Legacy.
Section NumberInput.
Context {num : Type} {JS : JSNumber num} {MJ : MathJS num}.
Variable props : Props.
Variable state : State.

Definition validateMinMax (n : num) : bool :=
  negb ((negb (jsstring_eqb (min props) (str "*"))
         && lessThan n (parseFloat (min props)))
        || (negb (jsstring_eqb (max props) (str "*"))
            && lessThan (parseFloat (max props)) n)).

Definition handleBlur : list action :=
  let processed := removeThousandsSeparators (value state) in
  SetError false
  :: (let evaluated := evaluateFormula props processed in
      if startsWith processed Ch.equals && isNull evaluated then
        [SetError true; Focus]
      else
        let processed :=
          match evaluated with
          | Some s => s
          | None => processed
          end in
        let n := parseFloat processed in
        if isNaN n || negb (validateMinMax n) then
          [SetError true; Focus]
        else formatAndStore props n).

End NumberInput.
End Legacy.

(** ** App.js: navigation between the fields *)

Inductive navigation :=
| FocusField (fieldId : string)
| NoFocus
| TypeError.

Section App.
(** [fieldOrder], and [fields] as the ids with a ref, each with whether
    [ref.current] holds a mounted element. *)
Variable fieldOrder : list string.
Variable fields : list (string * bool).

(** [arr.indexOf(x)], [-1] when absent. *)
Fixpoint indexOf (l : list string) (x : string) : Z :=
  match l with
  | [] => -1
  | y :: rest =>
      if String.eqb y x then 0
      else let i := indexOf rest x in
           if (i <? 0)%Z then -1 else (i + 1)%Z
  end.

(** [a % b] on integers: the sign of the dividend, [NaN] ([None]) for a
    zero divisor. *)
Definition remainder (a b : Z) : option Z :=
  if (b =? 0)%Z then None else Some (Z.rem a b).

(** [arr[i]], [undefined] outside the array and for an index that is
    [undefined] or [NaN]. *)
Definition element (l : list string) (i : option Z) : option string :=
  match i with
  | Some z => if (z <? 0)%Z then None else nth_error l (Z.to_nat z)
  | None => None
  end.

(** [obj[k]]; the key [undefined] reads the property "undefined". *)
Definition property (o : list (string * bool)) (k : option string)
  : option bool :=
  let name := match k with
              | Some s => s
              | None => "undefined"%string
              end in
  option_map snd (find (fun kv => String.eqb (fst kv) name) o).

Definition navigateToField (direction currentId : string) : navigation :=
  let currentIndex := indexOf fieldOrder currentId in
  let len := Z.of_nat (List.length fieldOrder) in
  let nextIndex :=
    if String.eqb direction "prev" then
      remainder (currentIndex - 1 + len) len
    else if String.eqb direction "next" then
      remainder (currentIndex + 1) len
    else None in
  let nextField := property fields (element fieldOrder nextIndex) in
  match nextField with
  | None => TypeError
  | Some current => if current then
                      match element fieldOrder nextIndex with
                      | Some target => FocusField target
                      | None => FocusField "undefined"
                      end
                    else NoFocus
  end.

End App.

Definition appFieldOrder : list string :=
  ["mainInput"; "minInput"; "maxInput"; "stepInput"; "decInput"]%string.

(** The refs of the form, every input mounted or only those listed. *)
Definition appFields (mounted : string -> bool) : list (string * bool) :=
  map (fun k => (k, mounted k)) appFieldOrder.

(** ** A reference platform: numbers as IEEE binary64

    The operators are the primitive ones of binary64. The conversions
    between text and numbers follow ECMA-262 ([parseFloat], [parseInt],
    [Number.prototype.toFixed], [Number::toString]) in exact integer
    arithmetic, rounded to nearest, ties to even. *)

Module Binary64.

(** The double nearest to the integer [m]; [negative] gives the sign of
    a zero. *)
Definition roundInteger (negative : bool) (m : Z) : float :=
  SF2Prim (binary_normalize prec emax
             (if negative then (- Z.abs m)%Z else Z.abs m) 0 negative).

Fixpoint uintUnits (u : Decimal.uint) : jsstring :=
  match u with
  | Decimal.Nil => []
  | Decimal.D0 r => 48%N :: uintUnits r
  | Decimal.D1 r => 49%N :: uintUnits r
  | Decimal.D2 r => 50%N :: uintUnits r
  | Decimal.D3 r => 51%N :: uintUnits r
  | Decimal.D4 r => 52%N :: uintUnits r
  | Decimal.D5 r => 53%N :: uintUnits r
  | Decimal.D6 r => 54%N :: uintUnits r
  | Decimal.D7 r => 55%N :: uintUnits r
  | Decimal.D8 r => 56%N :: uintUnits r
  | Decimal.D9 r => 57%N :: uintUnits r
  end.

(** The decimal digits of a non-negative integer. *)
Definition decimalString (n : Z) : jsstring :=
  match n with
  | Zpos p => uintUnits (Pos.to_uint p)
  | _ => [Ch.zero]
  end.

Definition digitCount (n : Z) : Z :=
  Z.of_nat (List.length (decimalString n)).

(** The double nearest to [m * 10^e10], [m] positive. Far outside the
    range of binary64 the result is known without computing the power. *)
Definition roundDecimal (negative : bool) (m : positive) (e10 : Z) : float :=
  if (310 <? e10 + digitCount (Zpos m))%Z then
    if negative then neg_infinity else infinity
  else if (e10 + digitCount (Zpos m) <? -330)%Z then
    if negative then neg_zero else zero
  else if (0 <=? e10)%Z then
    roundInteger negative (Zpos m * 10 ^ e10)
  else
    SF2Prim (SFdiv prec emax (S754_finite negative m 0)
               (S754_finite false (Z.to_pos (10 ^ (- e10))) 0)).

Fixpoint skipWhiteSpace (s : jsstring) : jsstring :=
  match s with
  | c :: rest => if isWhiteSpace c then skipWhiteSpace rest else s
  | [] => []
  end.

(** The longest prefix of digits, and what follows it. *)
Fixpoint digitsPrefix (s : jsstring) : jsstring * jsstring :=
  match s with
  | c :: rest =>
      if isDigit c then
        let (ds, after) := digitsPrefix rest in (c :: ds, after)
      else ([], s)
  | [] => ([], [])
  end.

Definition digitsValue (ds : jsstring) : Z :=
  fold_left (fun acc c => (10 * acc + (Z.of_N c - 48))%Z) ds 0%Z.

Fixpoint isPrefix (p s : jsstring) : bool :=
  match p, s with
  | [], _ => true
  | a :: p', b :: s' => (a =? b)%N && isPrefix p' s'
  | _ :: _, [] => false
  end.

(** A leading sign, and what follows it. *)
Definition scanSign (s : jsstring) : bool * jsstring :=
  match s with
  | c :: rest =>
      if (c =? Ch.minus)%N then (true, rest)
      else if (c =? Ch.plus)%N then (false, rest)
      else (false, s)
  | [] => (false, s)
  end.

(** ExponentPart, when one is there: its value and what follows. *)
Definition scanExponent (s : jsstring) : Z * jsstring :=
  match s with
  | c :: rest =>
      if (c =? Ch.lowerE)%N || (c =? Ch.upperE)%N then
        let (negative, r) := scanSign rest in
        let (ds, after) := digitsPrefix r in
        match ds with
        | [] => (0%Z, s)
        | _ :: _ =>
            ((if negative then - digitsValue ds else digitsValue ds)%Z,
             after)
        end
      else (0%Z, s)
  | [] => (0%Z, s)
  end.

(** The longest prefix that is a StrUnsignedDecimalLiteral: its value
    with the given sign, and what follows it. *)
Definition scanUnsigned (negative : bool) (s : jsstring)
  : option (float * jsstring) :=
  if isPrefix (str "Infinity") s then
    Some (if negative then neg_infinity else infinity, skipn 8 s)
  else
    let (intDigits, r1) := digitsPrefix s in
    let (fracDigits, r2) :=
      match r1 with
      | c :: r =>
          if (c =? Ch.dot)%N then
            let (fd, after) := digitsPrefix r in
            match intDigits, fd with
            | [], [] => ([], r1)
            | _, _ => (fd, after)
            end
          else ([], r1)
      | [] => ([], r1)
      end in
    match intDigits ++ fracDigits with
    | [] => None
    | _ :: _ =>
        let (e, r3) := scanExponent r2 in
        let e10 := (e - Z.of_nat (List.length fracDigits))%Z in
        Some (match digitsValue (intDigits ++ fracDigits) with
              | Zpos m => roundDecimal negative m e10
              | _ => if negative then neg_zero else zero
              end, r3)
    end.

Definition parseFloat (s : jsstring) : float :=
  let (negative, r) := scanSign (skipWhiteSpace s) in
  match scanUnsigned negative r with
  | Some (x, _) => x
  | None => nan
  end.

(** [parseInt(s, 10)]: radix 10 strips no [0x] prefix. *)
Definition parseInt10 (s : jsstring) : float :=
  let (negative, r) := scanSign (skipWhiteSpace s) in
  match fst (digitsPrefix r) with
  | [] => nan
  | ds => roundInteger negative (digitsValue ds)
  end.

Inductive integerOrInfinity :=
| Finite (z : Z)
| Infinite.

(** ToIntegerOrInfinity: [NaN] is 0, the rest is truncated. *)
Definition toIntegerOrInfinity (x : float) : integerOrInfinity :=
  match Prim2SF x with
  | S754_nan => Finite 0
  | S754_zero _ => Finite 0
  | S754_infinity _ => Infinite
  | S754_finite negative m e =>
      let magnitude :=
        if (0 <=? e)%Z then (Zpos m * 2 ^ e)%Z
        else (Zpos m / 2 ^ (- e))%Z in
      Finite (if negative then (- magnitude)%Z else magnitude)
  end.

(** Steps 9 to 11 of [toFixed]: the integer [n] with [f] digits after
    the point. *)
Definition fixedNotation (n : Z) (f : Z) : jsstring :=
  let m := decimalString n in
  if (f =? 0)%Z then m
  else
    let k := Z.of_nat (List.length m) in
    let m := if (k <=? f)%Z then repeat Ch.zero (Z.to_nat (f + 1 - k)) ++ m
             else m in
    let k := List.length m in
    firstn (k - Z.to_nat f) m ++ Ch.dot :: skipn (k - Z.to_nat f) m.

(** The integer nearest to [m * 2^e * 10^f], the larger one of two. *)
Definition scaledNearest (m : positive) (e f : Z) : Z :=
  if (0 <=? e)%Z then (Zpos m * 2 ^ e * 10 ^ f)%Z
  else ((2 * Zpos m * 10 ^ f + 2 ^ (- e)) / 2 ^ (1 - e))%Z.

(** Number::toString picks the fewest digits [k] whose value
    [s * 10^(n-k)] reads back as the same double, the [s] nearest to it,
    the even one of two; [shortest] tries [k = 1, 2, ...] on an integer
    [x] with [n] digits. *)
Fixpoint shortest (fuel : nat) (k : Z) (x : Z) (n : Z) : Z * Z * Z :=
  let scale := (10 ^ (n - k))%Z in
  let low := (x / scale)%Z in
  let same v := (roundInteger false v =? roundInteger false x)%float in
  let lowOk := same (low * scale)%Z in
  let highOk := same ((low + 1) * scale)%Z in
  let above := ((low + 1) * scale - x)%Z in
  let below := (x - low * scale)%Z in
  let pickHigh :=
    highOk
    && (negb lowOk || (above <? below)%Z
        || ((above =? below)%Z && Z.odd low)) in
  if lowOk || highOk then
    if pickHigh then
      if (low + 1 =? 10 ^ k)%Z then (10 ^ (k - 1), n + 1, k)%Z
      else (low + 1, n, k)%Z
    else (low, n, k)
  else
    match fuel with
    | O => (x, n, n)
    | S fuel' => shortest fuel' (k + 1)%Z x n
    end.

(** Number::toString of a finite double of magnitude [m * 2^e] that
    is at least [10^21]: always the exponential form. *)
Definition exponentialNotation (m : positive) (e : Z) : jsstring :=
  let x := (Zpos m * 2 ^ e)%Z in
  let '(s, n, k) := shortest 20 1 x (digitCount x) in
  let digits := decimalString s in
  firstn 1 digits
  ++ (if (k =? 1)%Z then [] else Ch.dot :: skipn 1 digits)
  ++ Ch.lowerE :: Ch.plus :: decimalString (n - 1).

Definition toFixed (x fractionDigits : float) : option jsstring :=
  match toIntegerOrInfinity fractionDigits with
  | Infinite => None
  | Finite f =>
      if (f <? 0)%Z || (100 <? f)%Z then None
      else
        Some match Prim2SF x with
             | S754_nan => str "NaN"
             | S754_infinity negative =>
                 if negative then str "-Infinity" else str "Infinity"
             | S754_zero _ => fixedNotation 0 f
             | S754_finite negative m e =>
                 (if negative then [Ch.minus] else [])
                 ++ (if (0 <=? e)%Z && (10 ^ 21 <=? Zpos m * 2 ^ e)%Z
                     then exponentialNotation m e
                     else fixedNotation (scaledNearest m e f) f)
             end
  end.

(** ToBoolean of a number: false for [NaN], [+0] and [-0]. *)
Definition toBoolean (x : float) : bool :=
  negb (is_nan x || is_zero x).

End Binary64.

#[export] Instance binary64 : JSNumber float := {|
  lit := fun z => Binary64.roundInteger (z <? 0)%Z z;
  NaN := nan;
  parseFloat := Binary64.parseFloat;
  parseInt10 := Binary64.parseInt10;
  isNaN := is_nan;
  lessThan := PrimFloat.ltb;
  plus := PrimFloat.add;
  minus := PrimFloat.sub;
  toBoolean := Binary64.toBoolean;
  toFixed := Binary64.toFixed
|}.

(** A stand-in for mathjs that is enough to run the formulas of the
    examples: unsigned decimal literals joined by ['+'], added from the
    left, an exponent such as [e+5] being part of its literal. Where it
    gives a number, mathjs gives the same one, and like mathjs it fails
    when nothing follows a ['+']. Any other text (other operators, a
    leading sign, names, blanks) it rejects, though mathjs may accept
    it. *)

Module Sums.

(** What follows the first literal: [+ literal] again and again. *)
Fixpoint total (fuel : nat) (acc : float) (s : jsstring) : option float :=
  match s with
  | [] => Some acc
  | c :: rest =>
      if (c =? Ch.plus)%N then
        match Binary64.scanUnsigned false rest, fuel with
        | Some (x, after), S fuel' => total fuel' (acc + x)%float after
        | _, _ => None
        end
      else None
  end.

Definition evaluate (expr : jsstring) : option float :=
  match Binary64.scanUnsigned false expr with
  | Some (x, after) => total (List.length expr) x after
  | None => None
  end.

End Sums.

#[export] Instance sums : MathJS float := {|
  mathValue := float;
  evaluate := Sums.evaluate;
  resultToFixed := Binary64.toFixed
|}.

(** ** What the specification says, in its own terms *)

(** A bound is checked only when it is not the ['*'] sentinel. *)
Definition violatesRange {num : Type} {JS : JSNumber num}
    (props : Props) (n : num) : bool :=
  (negb (jsstring_eqb (min props) (str "*"))
   && lessThan n (parseFloat (min props)))
  || (negb (jsstring_eqb (max props) (str "*"))
      && lessThan (parseFloat (max props)) n).

(** Grouping of a run of digits in clusters of three from the right:
    after a digit comes one separator exactly when the digits to its right
    are one or more whole groups of three. No separator precedes the first
    digit. *)
Definition wholeGroups (digitsToTheRight : nat) : bool :=
  (0 <? digitsToTheRight) && (digitsToTheRight mod 3 =? 0).

Fixpoint groupFromRight (ds : jsstring) : jsstring :=
  match ds with
  | [] => []
  | d :: rest =>
      d :: (if wholeGroups (List.length rest) then [Ch.space] else [])
        ++ groupFromRight rest
  end.

(** [(i + delta) mod n] with the mathematical modulus. *)
Definition wrapIndex (i delta n : Z) : Z :=
  ((i + delta) mod n)%Z.

(** What the numbers of the platform must satisfy: comparisons with [NaN]
    are false, [<] is asymmetric, [NaN] is falsy. *)
Class JSNumberLaws (num : Type) {JS : JSNumber num} : Prop := {
  isNaN_NaN : isNaN NaN = true;
  lessThan_NaN_l : forall x y, isNaN x = true -> lessThan x y = false;
  lessThan_NaN_r : forall x y, isNaN y = true -> lessThan x y = false;
  lessThan_asym : forall x y, lessThan x y = true -> lessThan y x = false;
  toBoolean_NaN : forall x, isNaN x = true -> toBoolean x = false
}.

(** What follows the first part once [join] has put the parts back. *)
Definition afterFirst (sep : N) (ps : list jsstring) : jsstring :=
  match ps with
  | [] => []
  | _ :: _ => sep :: join sep ps
  end.

(** ** App.js: the key handlers of the configuration inputs

    [handleCustomKeyDown] (both revisions of the form that navigate) and
    [handleDigitsInput] (the revision that filters the configuration
    inputs). The event carries the key and the cursor; [targetValue] is
    [e.target.value]. A call of [navigateToField] is logged as the
    [NavigateToField] action, as in the field. *)

Definition handleCustomKeyDown (e : KeyEvent) (targetValue : jsstring)
    (fieldId : string) : list action :=
  if includes arrowKeys (key e) then
    let navigation :=
      if String.eqb (key e) "ArrowUp" then Some "prev"%string
      else if String.eqb (key e) "ArrowDown" then Some "next"%string
      else if String.eqb (key e) "ArrowLeft" && (selectionStart e =? 0)
      then Some "prev"%string
      else if String.eqb (key e) "ArrowRight"
              && (selectionStart e =? List.length targetValue)
      then Some "next"%string
      else None in
    match navigation with
    | Some navDirection =>
        [PreventDefault; NavigateToField navDirection fieldId]
    | None => []
    end
  else [].

(** The [allowedChars] of [handleDigitsInput]. *)
Definition digitKeys : list string :=
  ["0"; "1"; "2"; "3"; "4"; "5"; "6"; "7"; "8"; "9"; "*";
   "Backspace"]%string.

Definition handleDigitsInput (e : KeyEvent) (targetValue : jsstring)
    (fieldId : string) : list action :=
  if negb (includes digitKeys (key e))
     || (existsb (N.eqb 42) targetValue
         && negb (String.eqb (key e) "Backspace")) then
    [PreventDefault]
  else handleCustomKeyDown e targetValue fieldId.

(** What the form's [navigateToField] does with the calls a handler
    logged. *)
Definition served (fieldOrder : list string) (fields : list (string * bool))
    (log : list action) : list navigation :=
  flat_map (fun a => match a with
                     | NavigateToField direction fieldId =>
                         [navigateToField fieldOrder fields direction fieldId]
                     | _ => []
                     end) log.

(** The number of digits before the first separator of a grouped run of
    [n] digits. *)
Definition firstGroupSize (n : nat) : nat :=
  if n =? 0 then 0 else (n - 1) mod 3 + 1.

(** ** Props used in the examples *)

(** Every prop at its default, a change callback present. *)
Definition starProps : Props := {|
  min := str "*";
  max := str "*";
  step := str "*";
  dec := str "*";
  id := "mainInput";
  onChange := true
|}.

(** The configuration of the specification's range example. *)
Definition rangeProps : Props := {|
  min := str "10";
  max := str "20";
  step := str "5";
  dec := str "2";
  id := "mainInput";
  onChange := true
|}.

(** A step of 5 and no bounds. *)
Definition stepProps : Props := {|
  min := str "*";
  max := str "*";
  step := str "5";
  dec := str "*";
  id := "mainInput";
  onChange := true
|}.


(** Decimals that [toFixed] refuses, for the examples. *)
Definition manyDecimalsProps : Props := {|
  min := str "*";
  max := str "*";
  step := str "5";
  dec := str "101";
  id := "mainInput";
  onChange := true
|}.

(** * Separators *)

Example addThousandsSeparators_1200_50 :
  addThousandsSeparators (str "1200.50") = str "1 200.50".
Proof. reflexivity. Qed.

Example addThousandsSeparators_millions :
  addThousandsSeparators (str "-1234567.891") = str "-1 234 567.891".
Proof. reflexivity. Qed.

Example addThousandsSeparators_NaN :
  addThousandsSeparators (str "NaN") = str "NaN".
Proof. reflexivity. Qed.

Example removeThousandsSeparators_1200_5 :
  removeThousandsSeparators (str "1 200.5") = str "1200.5".
Proof. reflexivity. Qed.

Example groupFromRight_millions :
  groupFromRight (str "1234567") = str "1 234 567".
Proof. reflexivity. Qed.

Example groupFromRight_hundreds :
  groupFromRight (str "123") = str "123".
Proof. reflexivity. Qed.

Section Separators.

Lemma split_nonempty sep s : split sep s <> [].
Proof.
  destruct s as [|c rest]; simpl; [discriminate|].
  destruct (c =? sep)%N; [discriminate|].
  destruct (split sep rest); discriminate.
Qed.

Lemma join_split sep s : join sep (split sep s) = s.
Proof.
  induction s as [|c rest IH]; [reflexivity|].
  simpl. destruct (c =? sep)%N eqn:E.
  - apply N.eqb_eq in E. subst c.
    pose proof (split_nonempty sep rest) as NE.
    simpl. destruct (split sep rest) as [|p ps]; [contradiction|].
    now rewrite IH.
  - pose proof (split_nonempty sep rest) as NE.
    destruct (split sep rest) as [|p ps]; [contradiction|].
    simpl in *. now rewrite IH.
Qed.

Lemma join_cons sep p ps : join sep (p :: ps) = p ++ afterFirst sep ps.
Proof. reflexivity. Qed.

(** [addThousandsSeparators] rewrites the first part and nothing else. *)
Lemma addThousandsSeparators_parts numStr :
  exists p0 tail,
    numStr = p0 ++ tail
    /\ addThousandsSeparators numStr
       = replaceGroupBoundaries None p0 ++ tail.
Proof.
  unfold addThousandsSeparators.
  pose proof (join_split Ch.dot numStr) as J.
  pose proof (split_nonempty Ch.dot numStr) as NE.
  destruct (split Ch.dot numStr) as [|p0 ps]; [contradiction|].
  exists p0, (afterFirst Ch.dot ps).
  rewrite join_cons in J. now rewrite join_cons.
Qed.

Lemma removeThousandsSeparators_app a b :
  removeThousandsSeparators (a ++ b)
  = removeThousandsSeparators a ++ removeThousandsSeparators b.
Proof. apply filter_app. Qed.

Lemma remove_replaceGroupBoundaries s :
  forall before,
    removeThousandsSeparators (replaceGroupBoundaries before s)
    = removeThousandsSeparators s.
Proof.
  induction s as [|c rest IH]; intros before.
  - simpl. unfold patternHolds. simpl.
    now rewrite andb_false_r.
  - cbn [replaceGroupBoundaries].
    rewrite removeThousandsSeparators_app.
    unfold removeThousandsSeparators in *.
    destruct (patternHolds before (c :: rest));
      cbn [filter app isWhiteSpace]; now rewrite IH.
Qed.

(** Stripping after inserting is stripping: insertion adds spaces only. *)
Lemma remove_add_is_remove numStr :
  removeThousandsSeparators (addThousandsSeparators numStr)
  = removeThousandsSeparators numStr.
Proof.
  destruct (addThousandsSeparators_parts numStr) as (p0 & tail & E & A).
  rewrite A. subst numStr.
  rewrite !removeThousandsSeparators_app.
  now rewrite remove_replaceGroupBoundaries.
Qed.

Lemma remove_without_separators s :
  Forall (fun c => isWhiteSpace c = false) s ->
  removeThousandsSeparators s = s.
Proof.
  induction 1 as [|c rest Hc _ IH]; [reflexivity|].
  unfold removeThousandsSeparators in *. cbn [filter].
  now rewrite Hc, IH.
Qed.

End Separators.

(** C6: on every text without separator (whitespace) characters, the
    numeric strings among them, removing the separators that
    [addThousandsSeparators] inserted gives the text back. *)
Theorem remove_add_roundtrip (s : jsstring) :
  Forall (fun c => isWhiteSpace c = false) s ->
  removeThousandsSeparators (addThousandsSeparators s) = s.
Proof.
intros H. rewrite remove_add_is_remove.
now apply remove_without_separators.
Qed.

Lemma remove_add_roundtrip_witness :
  Forall (fun c => isWhiteSpace c = false) (str "-1234567.50")
  /\ removeThousandsSeparators (addThousandsSeparators (str "-1234567.50"))
     = str "-1234567.50".
Proof.
assert (H : Forall (fun c => isWhiteSpace c = false) (str "-1234567.50"))
  by (repeat constructor).
split; [exact H | exact (remove_add_roundtrip _ H)].
Defined.

(** * Grouping of the integer part *)

Section Grouping.

Lemma digitTriples_head c s : digitTriples (c :: s) = true -> isDigit c = true.
Proof.
destruct s as [|b [|d rest]]; simpl; try discriminate.
destruct (isDigit c); [reflexivity | discriminate].
Qed.

Lemma wholeGroups_three k : wholeGroups (S (S (S (S k)))) = wholeGroups (S k).
Proof.
unfold wholeGroups. cbn [Nat.ltb Nat.leb andb].
replace (S (S (S (S k)))) with (S k + 1 * 3) by lia.
now rewrite Nat.Div0.mod_add.
Qed.

(** On a run of digits that no digit follows, [(\d{3})+(?!\d)] holds
    exactly when the run is one or more whole groups of three. *)
Lemma digitTriples_digits :
  forall n ds rest,
    List.length ds = n ->
    Forall (fun c => isDigit c = true) ds ->
    nextIsDigit rest = false ->
    digitTriples (ds ++ rest) = wholeGroups n.
Proof.
induction n as [n IH] using lt_wf_ind. intros ds rest L D R.
destruct ds as [|a [|b [|c ds']]]; cbn [List.length] in L; subst n.
- cbn [app]. destruct rest as [|x [|y [|z r]]]; try reflexivity.
  simpl in R. simpl. now rewrite R.
- cbn [app]. destruct rest as [|x [|y r]]; try reflexivity.
  simpl in R. simpl. rewrite R. now rewrite andb_false_r.
- cbn [app]. destruct rest as [|x r]; try reflexivity.
  simpl in R. simpl. rewrite R. now rewrite !andb_false_r.
- inversion D as [|? ? Da D1]; subst.
  inversion D1 as [|? ? Db D2]; subst.
  inversion D2 as [|? ? Dc D3]; subst.
  cbn [app digitTriples]. rewrite Da, Db, Dc. cbn [andb].
  rewrite (IH (List.length ds')) by (auto; lia).
  destruct ds' as [|d ds''].
  + cbn [app]. rewrite R. reflexivity.
  + inversion D3 as [|? ? Dd _]; subst.
    cbn [app nextIsDigit List.length]. rewrite Dd. cbn [negb].
    rewrite orb_false_r. symmetry. apply wholeGroups_three.
Qed.

Lemma isDigit_isWordChar c : isDigit c = true -> isWordChar c = true.
Proof. intros H. unfold isWordChar. now rewrite H. Qed.

(** Inside a run of digits the pattern puts the separators where the
    specification's grouping does; before the run it puts one only
    after a word character. *)
Lemma replaceGroupBoundaries_digits ds :
  Forall (fun c => isDigit c = true) ds ->
  forall before,
    replaceGroupBoundaries before ds
    = (if wordAt before && wholeGroups (List.length ds)
       then [Ch.space] else [])
      ++ groupFromRight ds.
Proof.
induction 1 as [|d rest Hd Hrest IH]; intros before.
- cbn. unfold patternHolds. cbn. now rewrite !andb_false_r.
- cbn [replaceGroupBoundaries groupFromRight].
  rewrite (IH (Some d)). cbn [wordAt].
  rewrite (isDigit_isWordChar d Hd). cbn [andb].
  unfold patternHolds, nonWordBoundary. cbn [hd_error wordAt].
  rewrite (isDigit_isWordChar d Hd).
  replace (digitTriples (d :: rest))
    with (wholeGroups (List.length (d :: rest))).
  + destruct (wordAt before); reflexivity.
  + pose proof (digitTriples_digits _ (d :: rest) [] eq_refl
                  (Forall_cons _ Hd Hrest) eq_refl) as T.
    rewrite app_nil_r in T. now rewrite T.
Qed.

Lemma replaceGroupBoundaries_sign ds :
  Forall (fun c => isDigit c = true) ds ->
  replaceGroupBoundaries None (Ch.minus :: ds) = Ch.minus :: groupFromRight ds.
Proof.
intros D. cbn [replaceGroupBoundaries].
rewrite (replaceGroupBoundaries_digits ds D). cbn [wordAt].
replace (patternHolds None (Ch.minus :: ds)) with false; [reflexivity|].
unfold patternHolds. symmetry. apply andb_false_iff. right.
destruct (digitTriples (Ch.minus :: ds)) eqn:E; [|reflexivity].
apply digitTriples_head in E. discriminate E.
Qed.

Lemma split_without_separator (sep : N) p :
  Forall (fun c => (c =? sep)%N = false) p ->
  forall tail, split sep (p ++ sep :: tail) = p :: split sep tail.
Proof.
induction 1 as [|c rest Hc _ IH]; intros tail.
- cbn. now rewrite N.eqb_refl.
- cbn [app split]. now rewrite Hc, IH.
Qed.

Lemma split_whole (sep : N) p :
  Forall (fun c => (c =? sep)%N = false) p ->
  split sep p = [p].
Proof.
induction 1 as [|c rest Hc _ IH]; [reflexivity|].
cbn [split]. now rewrite Hc, IH.
Qed.

(** Only the text before the first ['.'] is rewritten. *)
Lemma addThousandsSeparators_integer_part p :
  Forall (fun c => (c =? Ch.dot)%N = false) p ->
  addThousandsSeparators p = replaceGroupBoundaries None p
  /\ forall f,
       addThousandsSeparators (p ++ Ch.dot :: f)
       = replaceGroupBoundaries None p ++ Ch.dot :: f.
Proof.
intros H. unfold addThousandsSeparators. split.
- rewrite (split_whole _ _ H). cbn. apply app_nil_r.
- intros f. rewrite (split_without_separator _ _ H).
  rewrite join_cons. unfold afterFirst.
  pose proof (split_nonempty Ch.dot f) as NE.
  pose proof (join_split Ch.dot f) as J.
  destruct (split Ch.dot f) as [|q qs]; [contradiction|].
  now rewrite J.
Qed.

Lemma digits_without_dot ds :
  Forall (fun c => isDigit c = true) ds ->
  Forall (fun c => (c =? Ch.dot)%N = false) ds.
Proof.
apply Forall_impl. intros c H.
destruct (c =? Ch.dot)%N eqn:E; [|reflexivity].
apply N.eqb_eq in E. subst c. discriminate H.
Qed.

End Grouping.

(** C7: on a numeric string (an optional minus sign, digits, and an
    optional fraction that starts at the first ['.']),
    [addThousandsSeparators] groups the digits of the integer part in
    threes from the right, one separator between two groups and none before
    the leftmost, and returns the sign and the fraction as they were. *)
Theorem addThousandsSeparators_groups (sign ds fraction : jsstring) :
  sign = [] \/ sign = [Ch.minus] ->
  Forall (fun c => isDigit c = true) ds ->
  fraction = [] \/ (exists f, fraction = Ch.dot :: f) ->
  addThousandsSeparators (sign ++ ds ++ fraction)
  = sign ++ groupFromRight ds ++ fraction.
Proof.
intros S D F.
assert (P : Forall (fun c => (c =? Ch.dot)%N = false) (sign ++ ds)).
{ apply Forall_app. split; [|now apply digits_without_dot].
  destruct S as [-> | ->]; repeat constructor. }
assert (R : replaceGroupBoundaries None (sign ++ ds)
            = sign ++ groupFromRight ds).
{ destruct S as [-> | ->].
  - cbn [app]. now rewrite (replaceGroupBoundaries_digits ds D).
  - cbn [app]. now apply replaceGroupBoundaries_sign. }
destruct (addThousandsSeparators_integer_part _ P) as [Whole Parts].
destruct F as [-> | [f ->]].
- rewrite !app_nil_r. now rewrite Whole, R.
- rewrite app_assoc, Parts, R. now rewrite <- app_assoc.
Qed.

Lemma addThousandsSeparators_groups_witness :
  addThousandsSeparators (str "-1234567.50") = str "-1 234 567.50".
Proof.
apply (addThousandsSeparators_groups [Ch.minus] (str "1234567") (str ".50")).
- right. reflexivity.
- repeat constructor.
- right. exists (str "50"). reflexivity.
Defined.

(** * The binary64 platform satisfies the laws *)

Section Binary64Laws.

Lemma Prim2SF_NaN x : is_nan x = true -> Prim2SF x = S754_nan.
Proof. intros H. unfold Prim2SF. now rewrite H. Qed.

Lemma SFcompare_NaN_r a : SFcompare a S754_nan = None.
Proof. now destruct a. Qed.

Lemma SFcompare_Lt_antisym a b :
  SFcompare a b = Some Lt -> SFcompare b a = Some Gt.
Proof.
destruct a as [sa|sa| |sa ma ea], b as [sb|sb| |sb mb eb]; cbn;
  try discriminate;
  try (destruct sa; discriminate);
  try (destruct sb; discriminate);
  try (destruct sa, sb; (discriminate || reflexivity)).
rewrite (Z.compare_antisym ea eb).
pose proof (Pos.compare_cont_antisym ma mb Eq) as A.
cbn [CompOpp] in A. rewrite <- A. clear A.
destruct sa, sb; try (discriminate || reflexivity);
  destruct (ea ?= eb)%Z; cbn [CompOpp];
  try (discriminate || reflexivity);
  destruct (Pos.compare_cont Eq ma mb); cbn [CompOpp];
  (discriminate || reflexivity).
Qed.

Lemma ltb_NaN_l x y : is_nan x = true -> (x <? y)%float = false.
Proof.
intros H. rewrite ltb_spec, (Prim2SF_NaN x H). reflexivity.
Qed.

Lemma ltb_NaN_r x y : is_nan y = true -> (x <? y)%float = false.
Proof.
intros H. rewrite ltb_spec, (Prim2SF_NaN y H).
unfold SFltb. now rewrite SFcompare_NaN_r.
Qed.

Lemma ltb_asym x y : (x <? y)%float = true -> (y <? x)%float = false.
Proof.
rewrite !ltb_spec. unfold SFltb.
destruct (SFcompare (Prim2SF x) (Prim2SF y)) as [[| |]|] eqn:E;
  try discriminate.
intros _. now rewrite (SFcompare_Lt_antisym _ _ E).
Qed.

End Binary64Laws.

#[export] Instance binary64_laws : JSNumberLaws float.
Proof.
constructor.
- reflexivity.
- exact ltb_NaN_l.
- exact ltb_NaN_r.
- exact ltb_asym.
- intros x H. cbn in *. unfold Binary64.toBoolean. now rewrite H.
Qed.

(** * What the binary64 platform prints *)

Example parseFloat_samples :
  map (fun s => Binary64.parseFloat (str s))
    ["1200.5"; "  -7.25e1x"; ".5"; "5."; "-"; "."; "=2+3"; "Infinity"]%string
  = [1200.5; -72.5; 0.5; 5; nan; nan; nan; infinity]%float.
Proof. vm_compute. reflexivity. Qed.

Example toFixed_samples :
  map (fun xd => Binary64.toFixed (Binary64.parseFloat (str (fst xd)))
                   (Binary64.parseFloat (str (snd xd))))
    [("5", "2"); ("1.005", "2"); ("2.5", "0"); ("-0.001", "2");
     ("1e21", "2"); ("x", "2"); ("5", "101"); ("5", "x")]%string
  = [Some (str "5.00"); Some (str "1.00"); Some (str "3");
     Some (str "-0.00"); Some (str "1e+21"); Some (str "NaN"); None;
     Some (str "5")].
Proof. vm_compute. reflexivity. Qed.

Section Printed.

Let printable (c : N) : Prop := isWhiteSpace c = false.

Lemma uintUnits_printable u : Forall printable (Binary64.uintUnits u).
Proof. induction u; cbn; constructor; (reflexivity || assumption). Qed.

Lemma decimalString_printable n : Forall printable (Binary64.decimalString n).
Proof.
destruct n; cbn; try (repeat constructor; fail).
apply uintUnits_printable.
Qed.

Lemma firstn_skipn_printable k l :
  Forall printable l ->
  Forall printable (firstn k l) /\ Forall printable (skipn k l).
Proof.
intros H. apply Forall_app. now rewrite firstn_skipn.
Qed.

Lemma fixedNotation_printable n f :
  Forall printable (Binary64.fixedNotation n f).
Proof.
unfold Binary64.fixedNotation.
destruct (f =? 0)%Z; [apply decimalString_printable|].
set (m := if (_ <=? f)%Z then _ else _).
assert (M : Forall printable m).
{ unfold m. destruct (_ <=? f)%Z; [|apply decimalString_printable].
  apply Forall_app. split; [|apply decimalString_printable].
  apply Forall_forall. intros c I. apply repeat_spec in I. now subst c. }
destruct (firstn_skipn_printable (List.length m - Z.to_nat f) m M) as [A B].
apply Forall_app. split; [exact A|]. now constructor.
Qed.

Lemma exponentialNotation_printable m e :
  Forall printable (Binary64.exponentialNotation m e).
Proof.
unfold Binary64.exponentialNotation.
destruct (Binary64.shortest _ _ _ _) as [[s n] k].
destruct (firstn_skipn_printable 1 _ (decimalString_printable s)) as [A B].
apply Forall_app. split; [exact A|].
apply Forall_app. split.
- destruct (k =? 1)%Z; constructor; [reflexivity | exact B].
- repeat (constructor; [reflexivity|]). apply decimalString_printable.
Qed.

(** No text that [toFixed] prints holds a separator character. *)
Lemma toFixed_without_separators x fractionDigits digits :
  Binary64.toFixed x fractionDigits = Some digits ->
  Forall (fun c => isWhiteSpace c = false) digits.
Proof.
unfold Binary64.toFixed.
destruct (Binary64.toIntegerOrInfinity fractionDigits) as [f|];
  [|discriminate].
destruct ((f <? 0)%Z || (100 <? f)%Z); [discriminate|].
intros H. injection H as <-.
destruct (Prim2SF x) as [negative|negative| |negative m e].
- apply fixedNotation_printable.
- destruct negative; repeat constructor.
- repeat constructor.
- apply Forall_app. split; [destruct negative; repeat constructor|].
  destruct (_ && _);
    [apply exponentialNotation_printable | apply fixedNotation_printable].
Qed.

(** Every value the field formats on this platform comes back from
    separator removal as [toFixed] printed it. *)
Lemma formatted_value_roundtrip x fractionDigits digits :
  Binary64.toFixed x fractionDigits = Some digits ->
  removeThousandsSeparators (addThousandsSeparators digits) = digits.
Proof.
intros H. rewrite remove_add_is_remove.
apply remove_without_separators.
now apply (toFixed_without_separators x fractionDigits).
Qed.

End Printed.

(** * The field *)

Section Field.
Context {num : Type} {JS : JSNumber num} {MJ : MathJS num}.

Lemma jsstring_eqb_true a b : jsstring_eqb a b = true <-> a = b.
Proof.
unfold jsstring_eqb. destruct (list_eq_dec N.eq_dec a b); split; intros H;
  (assumption || reflexivity || discriminate || contradiction).
Qed.

Lemma jsstring_eqb_false a b : jsstring_eqb a b = false <-> a <> b.
Proof.
unfold jsstring_eqb. destruct (list_eq_dec N.eq_dec a b); split; intros H;
  (assumption || reflexivity || discriminate || contradiction).
Qed.

Lemma commit_app st l1 l2 : commit st (l1 ++ l2) = commit (commit st l1) l2.
Proof. apply fold_left_app. Qed.

(** A log without [setError] leaves the flag alone. *)
Lemma commit_keeps_error log :
  existsb setsError log = false ->
  forall st, error (commit st log) = error st.
Proof.
induction log as [|a rest IH]; intros H st; [reflexivity|].
cbn [existsb] in H. apply orb_false_iff in H. destruct H as [Ha Hrest].
cbn [commit fold_left]. fold (commit (apply st a) rest).
rewrite (IH Hrest). now destruct a.
Qed.

(** A log with a [setError] decides the flag whatever it was. *)
Lemma commit_decides_error log :
  existsb setsError log = true ->
  forall st st', error (commit st log) = error (commit st' log).
Proof.
induction log as [|a rest IH]; intros H st st'; [discriminate|].
cbn [commit fold_left]. fold (commit (apply st a) rest).
fold (commit (apply st' a) rest).
destruct (existsb setsError rest) eqn:R.
- now apply IH.
- rewrite !(commit_keeps_error rest R).
  cbn [existsb] in H. rewrite R, orb_false_r in H.
  destruct a; try discriminate. reflexivity.
Qed.

Lemma evaluateFormula_null props input :
  evaluateFormula props input = None -> startsWith input Ch.equals = true.
Proof.
unfold evaluateFormula. destruct (startsWith input Ch.equals);
  [reflexivity | discriminate].
Qed.

Lemma formatAndStore_sets_no_error props n :
  existsb setsError (formatAndStore props n) = false.
Proof.
unfold formatAndStore. destruct (toFixed n (decimals props)); [|reflexivity].
now destruct (onChange props).
Qed.

Lemma formatAndStore_no_focus props n :
  existsb isFocus (formatAndStore props n) = false.
Proof.
unfold formatAndStore. destruct (toFixed n (decimals props)); [|reflexivity].
now destruct (onChange props).
Qed.

(** The two outcomes of a blur on a buffer that is not empty. *)
Lemma handleBlur_formula_error props st :
  value st <> [] ->
  evaluateFormula props (removeThousandsSeparators (value st)) = None ->
  handleBlur props st = [SetError false; SetError true; FocusLater].
Proof.
intros NE E. unfold handleBlur.
rewrite (proj2 (jsstring_eqb_false _ _) NE).
rewrite (evaluateFormula_null _ _ E), E. reflexivity.
Qed.

Lemma handleBlur_evaluated props st w :
  value st <> [] ->
  evaluateFormula props (removeThousandsSeparators (value st)) = Some w ->
  handleBlur props st
  = SetError false :: SetError (outOfRange props (parseFloat w))
      :: formatAndStore props (parseFloat w).
Proof.
intros NE E. unfold handleBlur.
rewrite (proj2 (jsstring_eqb_false _ _) NE), E.
cbn [isNull]. rewrite andb_false_r. reflexivity.
Qed.

Lemma startsWith_nonempty s c : startsWith s c = true -> s <> [].
Proof. destruct s; [discriminate | intros _; discriminate]. Qed.

Lemma removeThousandsSeparators_nonempty s :
  removeThousandsSeparators s <> [] -> s <> [].
Proof. intros H E. subst s. now apply H. Qed.

Context {Laws : JSNumberLaws num}.

(** The flag [validateMinMax] computes is the range check of the
    specification: a bound that is ['*'] or not a number rejects nothing. *)
Lemma outOfRange_violatesRange props n :
  outOfRange props n = violatesRange props n.
Proof.
unfold outOfRange, violatesRange, minNum, maxNum.
assert (B : forall (on : bool) bound,
           negb (isNaN (if on then parseFloat bound else NaN))
           && lessThan n (if on then parseFloat bound else NaN)
           = on && lessThan n (parseFloat bound)).
{ intros [|] bound; cbn [andb].
  - destruct (isNaN (parseFloat bound)) eqn:E; cbn [negb andb].
    + symmetry. now apply lessThan_NaN_r.
    + reflexivity.
  - now rewrite isNaN_NaN. }
assert (A : forall (on : bool) bound,
           negb (isNaN (if on then parseFloat bound else NaN))
           && lessThan (if on then parseFloat bound else NaN) n
           = on && lessThan (parseFloat bound) n).
{ intros [|] bound; cbn [andb].
  - destruct (isNaN (parseFloat bound)) eqn:E; cbn [negb andb].
    + symmetry. now apply lessThan_NaN_l.
    + reflexivity.
  - now rewrite isNaN_NaN. }
now rewrite B, A.
Qed.

(** Not a number is inside every range. *)
Lemma outOfRange_NaN props n : isNaN n = true -> outOfRange props n = false.
Proof.
intros H. rewrite outOfRange_violatesRange. unfold violatesRange.
rewrite (lessThan_NaN_l n _ H), (lessThan_NaN_r _ n H).
now rewrite !andb_false_r.
Qed.

(** What the forwardRef revision does with text that is no number: no
    error, no focus, and whatever [toFixed] prints is stored. *)
Lemma handleBlur_unparsable props st w :
  value st <> [] ->
  evaluateFormula props (removeThousandsSeparators (value st)) = Some w ->
  isNaN (parseFloat w) = true ->
  handleBlur props st
  = SetError false :: SetError false :: formatAndStore props (parseFloat w).
Proof.
intros NE E P. rewrite (handleBlur_evaluated props st w NE E).
now rewrite (outOfRange_NaN props _ P).
Qed.

(** The earlier revision on the same text: error, focus, nothing stored. *)
Lemma legacy_handleBlur_unparsable props st w :
  evaluateFormula props (removeThousandsSeparators (value st)) = Some w ->
  isNaN (parseFloat w) = true ->
  Legacy.handleBlur props st = [SetError false; SetError true; Focus].
Proof.
intros E P. unfold Legacy.handleBlur. rewrite E. cbn [isNull].
rewrite andb_false_r, P. reflexivity.
Qed.

End Field.

(** * Blur *)

(** C1: the code does not do this. On the buffer "-", which does not parse
    as a number, the blur of the forwardRef revision leaves the error flag
    false, stores "NaN" in the buffer, passes "NaN" to the change callback
    and asks for no focus; the claim wants the flag set, the focus restored
    and neither write nor callback, which is what the earlier revision
    does ([legacy_handleBlur_unparsable]). *)
Theorem handleBlur_unparsable_stores_NaN :
  let st := {| value := str "-"; error := false |} in
  handleBlur (num := float) starProps st
  = [SetError false; SetError false; SetValue (str "NaN");
     OnChange (str "NaN")]
  /\ commit st (handleBlur (num := float) starProps st)
     = {| value := str "NaN"; error := false |}.
Proof. vm_compute. split; reflexivity. Qed.

Example legacy_handleBlur_minus_sign :
  Legacy.handleBlur (num := float) starProps
    {| value := str "-"; error := false |}
  = [SetError false; SetError true; Focus].
Proof. vm_compute. reflexivity. Qed.




Example handleBlur_formula_sum :
  handleBlur (num := float) starProps {| value := str "=2+3"; error := true |}
  = [SetError false; SetError false; SetValue (str "5.00");
     OnChange (str "5.00")].
Proof. vm_compute. reflexivity. Qed.

Example handleBlur_formula_with_exponent :
  handleBlur (num := float) starProps
    {| value := str "=1e+3+.5"; error := false |}
  = [SetError false; SetError false; SetValue (str "1 000.50");
     OnChange (str "1 000.50")].
Proof. vm_compute. reflexivity. Qed.

Example handleFocus_then_handleBlur :
  let st := {| value := str "1 200.5"; error := false |} in
  commit st (handleFocus st) = {| value := str "1200.5"; error := false |}
  /\ commit (commit st (handleFocus st))
       (handleBlur (num := float) starProps (commit st (handleFocus st)))
     = {| value := str "1 200.50"; error := false |}.
Proof. vm_compute. split; reflexivity. Qed.

(** C3: a blur on the empty buffer does nothing: the handler returns at
    once, so the state stays as it was (the error flag false when it was
    false, the buffer empty) and the change callback is not called. *)
Theorem handleBlur_empty_buffer
  {num : Type} {JS : JSNumber num} {MJ : MathJS num}
  (props : Props) (e : bool) :
  let st := {| value := []; error := e |} in
  handleBlur props st = []
  /\ commit st (handleBlur props st) = st
  /\ existsb isOnChange (handleBlur props st) = false.
Proof. cbn. repeat split; reflexivity. Qed.

Example legacy_handleBlur_empty_buffer :
  Legacy.handleBlur (num := float) starProps {| value := []; error := false |}
  = [SetError false; SetError true; Focus].
Proof. vm_compute. reflexivity. Qed.

(** C4: when the stripped buffer starts with ['='] and the evaluation of
    the rest fails, the blur sets the error flag, queues the focus back to
    the field and returns: no write to the buffer, no change callback. And
    a blur asks for the focus only after a formula or parse failure. *)
Theorem handleBlur_formula_failure
  {num : Type} {JS : JSNumber num} {MJ : MathJS num}
  (props : Props) (st : State) :
  (startsWith (removeThousandsSeparators (value st)) Ch.equals = true ->
   evaluateFormula props (removeThousandsSeparators (value st)) = None ->
   handleBlur props st = [SetError false; SetError true; FocusLater]
   /\ commit st (handleBlur props st)
      = {| value := value st; error := true |})
  /\ (existsb isFocus (handleBlur props st) = true ->
      (startsWith (removeThousandsSeparators (value st)) Ch.equals = true
       /\ evaluateFormula props (removeThousandsSeparators (value st)) = None)
      \/ (exists w,
            evaluateFormula props (removeThousandsSeparators (value st))
            = Some w
            /\ isNaN (parseFloat w) = true)).
Proof.
split.
- intros S E.
  assert (NE : value st <> []).
  { apply removeThousandsSeparators_nonempty.
    now apply (startsWith_nonempty _ Ch.equals). }
  rewrite (handleBlur_formula_error props st NE E).
  split; [reflexivity|]. now destruct st.
- intros F. left.
  destruct (list_eq_dec N.eq_dec (value st) []) as [Empty|NE].
  + unfold handleBlur in F.
    rewrite (proj2 (jsstring_eqb_true _ _) Empty) in F. discriminate F.
  + destruct (evaluateFormula props (removeThousandsSeparators (value st)))
      as [w|] eqn:E.
    * rewrite (handleBlur_evaluated props st w NE E) in F.
      cbn [existsb isFocus orb] in F.
      rewrite formatAndStore_no_focus in F. discriminate F.
    * split; [|reflexivity]. now apply (evaluateFormula_null props).
Qed.

Lemma handleBlur_formula_failure_witness :
  let st := {| value := str "=2+"; error := false |} in
  handleBlur (num := float) starProps st
  = [SetError false; SetError true; FocusLater]
  /\ commit st (handleBlur (num := float) starProps st)
     = {| value := str "=2+"; error := true |}.
Proof.
apply (proj1 (handleBlur_formula_failure (num := float) starProps
                {| value := str "=2+"; error := false |})).
- reflexivity.
- vm_compute. reflexivity.
Defined.

(** * Wheel *)

Section Wheel.
Context {num : Type} {JS : JSNumber num} {MJ : MathJS num}.

Lemma handleWheel_unstepped props st deltaY :
  step props = str "*" -> handleWheel props st deltaY = [PreventDefault].
Proof.
intros S. unfold handleWheel.
now rewrite (proj2 (jsstring_eqb_true _ _) S).
Qed.

Lemma handleWheel_stepped props st deltaY :
  step props <> str "*" ->
  let parsed := parseFloat (removeThousandsSeparators (value st)) in
  let current := if toBoolean parsed then parsed else lit 0 in
  let newValue :=
    if lessThan deltaY (lit 0) then plus current (parseFloat (step props))
    else minus current (parseFloat (step props)) in
  handleWheel props st deltaY
  = PreventDefault :: SetError (outOfRange props newValue)
      :: formatAndStore props newValue.
Proof.
intros S. unfold handleWheel.
now rewrite (proj2 (jsstring_eqb_false _ _) S).
Qed.

End Wheel.




Example handleWheel_down_then_up :
  let st10 := {| value := str "10.00"; error := false |} in
  let st5 := commit st10 (handleWheel (num := float) stepProps st10 (lit 1)) in
  st5 = {| value := str "5.00"; error := false |}
  /\ commit st5 (handleWheel (num := float) stepProps st5 (lit (-1)))
     = {| value := str "10.00"; error := false |}.
Proof. vm_compute. split; reflexivity. Qed.

Example handleWheel_unparsable_buffer :
  handleWheel (num := float) stepProps {| value := str "=2+"; error := true |}
    (lit (-1))
  = [PreventDefault; SetError false; SetValue (str "5.00");
     OnChange (str "5.00")].
Proof. vm_compute. reflexivity. Qed.

(** * Where the error flag is written *)

Section ErrorFlag.
Context {num : Type} {JS : JSNumber num} {MJ : MathJS num}.

Lemma handleBlur_ignores_flag props v e e' :
  handleBlur props {| value := v; error := e |}
  = handleBlur props {| value := v; error := e' |}.
Proof. reflexivity. Qed.

Lemma handleWheel_ignores_flag props v e e' deltaY :
  handleWheel props {| value := v; error := e |} deltaY
  = handleWheel props {| value := v; error := e' |} deltaY.
Proof. reflexivity. Qed.

Lemma handleBlur_clears_first props st :
  value st <> [] ->
  exists rest,
    handleBlur props st = SetError false :: rest
    /\ existsb setsError rest = true.
Proof.
intros NE.
destruct (evaluateFormula props (removeThousandsSeparators (value st)))
  as [w|] eqn:E.
- rewrite (handleBlur_evaluated props st w NE E).
  eexists. split; reflexivity.
- rewrite (handleBlur_formula_error props st NE E).
  eexists. split; reflexivity.
Qed.


End ErrorFlag.





(** * Navigation *)

Section Navigation.
Variable fieldOrder : list string.
Variable fields : list (string * bool).

Local Open Scope Z_scope.

Lemma indexOf_bounds l x : -1 <= indexOf l x < Z.of_nat (List.length l).
Proof.
induction l as [|y rest IH]; cbn [indexOf List.length]; [lia|].
destruct (String.eqb y x); [lia|].
destruct (indexOf rest x <? 0) eqn:E; [lia|].
apply Z.ltb_ge in E. lia.
Qed.

Lemma indexOf_absent l x : ~ In x l -> indexOf l x = -1.
Proof.
induction l as [|y rest IH]; intros H; [reflexivity|].
cbn [indexOf]. destruct (String.eqb_spec y x) as [->|_].
- exfalso. apply H. now left.
- rewrite IH by (intros I; apply H; now right). reflexivity.
Qed.

(** In a list without duplicates [indexOf] finds the position. *)
Lemma indexOf_nth l :
  NoDup l ->
  forall i x, nth_error l i = Some x -> indexOf l x = Z.of_nat i.
Proof.
induction 1 as [|y rest Hy _ IH]; intros i x Hx.
- now destruct i.
- cbn [indexOf]. destruct i as [|i]; cbn [nth_error] in Hx.
  + injection Hx as ->. now rewrite String.eqb_refl.
  + destruct (String.eqb_spec y x) as [->|_].
    * exfalso. apply Hy. now apply (nth_error_In rest i).
    * rewrite (IH i x Hx).
      destruct (Z.of_nat i <? 0) eqn:E; [apply Z.ltb_lt in E; lia | lia].
Qed.

Lemma element_nth l j :
  0 <= j -> element l (Some j) = nth_error l (Z.to_nat j).
Proof.
intros H. unfold element.
destruct (j <? 0) eqn:E; [apply Z.ltb_lt in E; lia | reflexivity].
Qed.

(** Once the index is known, the handler focuses the field found there
    when its ref holds an element and does nothing when it does not. *)
Lemma navigateToField_resolved direction currentId j target mounted :
  (direction = "prev"%string
   /\ remainder (indexOf fieldOrder currentId - 1
                 + Z.of_nat (List.length fieldOrder))
        (Z.of_nat (List.length fieldOrder)) = Some j)
  \/ (direction = "next"%string
      /\ remainder (indexOf fieldOrder currentId + 1)
           (Z.of_nat (List.length fieldOrder)) = Some j) ->
  0 <= j ->
  nth_error fieldOrder (Z.to_nat j) = Some target ->
  property fields (Some target) = Some mounted ->
  navigateToField fieldOrder fields direction currentId
  = if mounted then FocusField target else NoFocus.
Proof.
intros D J T P. unfold navigateToField.
destruct D as [[-> R] | [-> R]]; cbn [String.eqb Ascii.eqb Bool.eqb];
  rewrite R, (element_nth _ _ J), T, P; reflexivity.
Qed.

Lemma remainder_wraps i delta :
  0 <= i < Z.of_nat (List.length fieldOrder) ->
  delta = -1 \/ delta = 1 ->
  let n := Z.of_nat (List.length fieldOrder) in
  remainder (i - 1 + n) n = Some (wrapIndex i (-1) n)
  /\ remainder (i + 1) n = Some (wrapIndex i 1 n)
  /\ 0 <= wrapIndex i delta n < n.
Proof.
intros I D n. fold n in I. unfold remainder, wrapIndex.
assert (N : (n =? 0) = false) by (apply Z.eqb_neq; lia).
rewrite N. repeat split.
- rewrite Z.rem_mod_nonneg by lia.
  replace (i - 1 + n) with (i + -1 + 1 * n) by lia.
  now rewrite Z.mod_add by lia.
- now rewrite Z.rem_mod_nonneg by lia.
- apply Z.mod_pos_bound. lia.
- apply Z.mod_pos_bound. lia.
Qed.

End Navigation.

Lemma appFieldOrder_NoDup : NoDup appFieldOrder.
Proof.
unfold appFieldOrder.
repeat (constructor; [cbn; intuition discriminate|]). constructor.
Qed.

(** C8: from a field of the order, ['prev'] and ['next'] resolve to the
    field at [(currentIndex -/+ 1) mod fieldCount], so the first field goes
    back to the last and the last field on to the first; the resolved
    field is focused when its ref holds an element, and nothing happens,
    without an error, when it does not. *)
Theorem navigateToField_wraps
  (fieldOrder : list string) (fields : list (string * bool))
  (i : nat) (fromId direction : string) (delta : Z) :
  NoDup fieldOrder ->
  nth_error fieldOrder i = Some fromId ->
  (direction = "prev"%string /\ delta = (-1)%Z)
  \/ (direction = "next"%string /\ delta = 1%Z) ->
  let n := Z.of_nat (List.length fieldOrder) in
  let j := wrapIndex (Z.of_nat i) delta n in
  (exists target,
     nth_error fieldOrder (Z.to_nat j) = Some target
     /\ forall mounted,
          property fields (Some target) = Some mounted ->
          navigateToField fieldOrder fields direction fromId
          = if mounted then FocusField target else NoFocus)
  /\ (i = 0%nat -> delta = (-1)%Z -> j = (n - 1)%Z)
  /\ (S i = List.length fieldOrder -> delta = 1%Z -> j = 0%Z).
Proof.
intros ND Hi D n j.
assert (I : (0 <= Z.of_nat i < n)%Z).
{ split; [lia|]. apply Nat2Z.inj_lt. apply nth_error_Some. now rewrite Hi. }
assert (Dd : delta = (-1)%Z \/ delta = 1%Z)
  by (destruct D as [[_ ->]|[_ ->]]; auto).
destruct (remainder_wraps fieldOrder (Z.of_nat i) delta I Dd)
  as (Prev & Next & J).
fold n in Prev, Next, J. fold j in J.
split; [|split].
- destruct (nth_error fieldOrder (Z.to_nat j)) as [target|] eqn:T.
  + exists target. split; [reflexivity|]. intros mounted P.
    apply (navigateToField_resolved fieldOrder fields direction fromId j);
      try assumption; try lia.
    rewrite (indexOf_nth fieldOrder ND i fromId Hi). fold n.
    destruct D as [[-> ->]|[-> ->]]; [left | right]; split; auto.
  + exfalso. apply nth_error_None in T. lia.
- intros -> ->. unfold j, wrapIndex. cbn [Z.of_nat Z.add].
  replace (-1)%Z with ((n - 1) + -1 * n)%Z by lia.
  rewrite Z.mod_add by lia. apply Z.mod_small. lia.
- intros L ->. unfold j, wrapIndex.
  replace (Z.of_nat i + 1)%Z with n by (unfold n; lia).
  apply Z.mod_same. lia.
Qed.

Lemma navigateToField_wraps_witness :
  navigateToField appFieldOrder (appFields (fun _ => true)) "next" "decInput"
  = FocusField "mainInput".
Proof.
destruct (navigateToField_wraps appFieldOrder (appFields (fun _ => true))
            4 "decInput" "next" 1 appFieldOrder_NoDup eq_refl
            (or_intror (conj eq_refl eq_refl)))
  as ((target & T & N) & _).
cbn in T. injection T as <-.
exact (N true eq_refl).
Defined.

Example navigateToField_first_prev :
  navigateToField appFieldOrder (appFields (fun _ => true)) "prev" "mainInput"
  = FocusField "decInput".
Proof. reflexivity. Qed.

Example navigateToField_unmounted :
  navigateToField appFieldOrder
    (appFields (fun k => negb (String.eqb k "minInput"))) "next" "mainInput"
  = NoFocus.
Proof. reflexivity. Qed.

Example navigateToField_arrow_key_name :
  navigateToField appFieldOrder (appFields (fun _ => true)) "ArrowUp"
    "mainInput"
  = TypeError.
Proof. reflexivity. Qed.

(** C10: for a field id that is not in the order [indexOf] gives -1 and
    the request is served all the same: ['next'] resolves to the first
    field (index 0) and ['prev'] to the field before the last (index
    [fieldCount - 2]), which is focused when its ref holds an element. *)
Theorem navigateToField_unknown_field
  (fieldOrder : list string) (fields : list (string * bool))
  (fromId : string) :
  ~ In fromId fieldOrder ->
  (2 <= List.length fieldOrder)%nat ->
  exists first beforeLast,
    nth_error fieldOrder 0 = Some first
    /\ nth_error fieldOrder (List.length fieldOrder - 2) = Some beforeLast
    /\ (forall mounted,
          property fields (Some first) = Some mounted ->
          navigateToField fieldOrder fields "next" fromId
          = if mounted then FocusField first else NoFocus)
    /\ (forall mounted,
          property fields (Some beforeLast) = Some mounted ->
          navigateToField fieldOrder fields "prev" fromId
          = if mounted then FocusField beforeLast else NoFocus).
Proof.
intros Absent Two.
pose proof (indexOf_absent fieldOrder fromId Absent) as I.
set (n := Z.of_nat (List.length fieldOrder)).
assert (N : (2 <= n)%Z) by (unfold n; lia).
destruct (nth_error fieldOrder 0) as [first|] eqn:F;
  [|apply nth_error_None in F; lia].
destruct (nth_error fieldOrder (List.length fieldOrder - 2))
  as [beforeLast|] eqn:B; [|apply nth_error_None in B; lia].
exists first, beforeLast. repeat split.
- intros mounted P.
  apply (navigateToField_resolved fieldOrder fields "next" fromId 0%Z);
    try assumption; try lia.
  right. split; [reflexivity|]. rewrite I. fold n. unfold remainder.
  replace (n =? 0)%Z with false by (symmetry; apply Z.eqb_neq; lia).
  reflexivity.
- intros mounted P.
  apply (navigateToField_resolved fieldOrder fields "prev" fromId (n - 2)%Z);
    try assumption; try lia.
  + left. split; [reflexivity|]. rewrite I. fold n. unfold remainder.
    replace (n =? 0)%Z with false by (symmetry; apply Z.eqb_neq; lia).
    f_equal. replace (-1 - 1 + n)%Z with (n - 2)%Z by lia.
    apply Z.rem_small. lia.
  + replace (Z.to_nat (n - 2)) with (List.length fieldOrder - 2)%nat
      by (unfold n; lia).
    exact B.
Qed.

Lemma navigateToField_unknown_field_witness :
  navigateToField appFieldOrder (appFields (fun _ => true)) "next" "helpInput"
  = FocusField "mainInput"
  /\ navigateToField appFieldOrder (appFields (fun _ => true)) "prev"
       "helpInput"
     = FocusField "stepInput".
Proof.
destruct (navigateToField_unknown_field appFieldOrder
            (appFields (fun _ => true)) "helpInput")
  as (first & beforeLast & F & B & Next & Prev).
- cbn. intuition discriminate.
- cbn. lia.
- cbn in F, B. injection F as <-. injection B as <-.
  split; [exact (Next true eq_refl) | exact (Prev true eq_refl)].
Defined.

(** * More on navigation *)

Section NavigationSafety.
Variable fieldOrder : list string.
Variable fields : list (string * bool).

Local Open Scope Z_scope.

(** For ['prev'] and ['next'] the index the handler computes lies inside
    a non-empty order, whatever field the request comes from. *)
Lemma nextIndex_in_order direction currentId :
  fieldOrder <> [] ->
  direction = "prev"%string \/ direction = "next"%string ->
  exists j target,
    0 <= j
    /\ nth_error fieldOrder (Z.to_nat j) = Some target
    /\ ((direction = "prev"%string
         /\ remainder (indexOf fieldOrder currentId - 1
                       + Z.of_nat (List.length fieldOrder))
              (Z.of_nat (List.length fieldOrder)) = Some j)
        \/ (direction = "next"%string
            /\ remainder (indexOf fieldOrder currentId + 1)
                 (Z.of_nat (List.length fieldOrder)) = Some j)).
Proof.
intros NE D.
pose proof (indexOf_bounds fieldOrder currentId) as B.
set (n := Z.of_nat (List.length fieldOrder)) in *.
set (ci := indexOf fieldOrder currentId) in *.
assert (N : 1 <= n).
{ unfold n. destruct fieldOrder; [contradiction | cbn [List.length]; lia]. }
assert (Z0 : (n =? 0) = false) by (apply Z.eqb_neq; lia).
assert (R : forall a, 0 <= a \/ n = 1 -> 0 <= Z.rem a n < n).
{ intros a [A | N1].
  - apply Z.rem_bound_pos; lia.
  - rewrite N1, Z.rem_1_r. lia. }
assert (T : forall j, 0 <= j < n ->
            exists target, nth_error fieldOrder (Z.to_nat j) = Some target).
{ intros j J. destruct (nth_error fieldOrder (Z.to_nat j)) eqn:E;
    [eauto|]. apply nth_error_None in E. unfold n in J. lia. }
destruct D as [-> | ->].
- pose proof (R (ci - 1 + n) ltac:(lia)) as J.
  destruct (T _ J) as [target Ht].
  exists (Z.rem (ci - 1 + n) n), target. repeat split; try tauto; try lia.
  left. split; [reflexivity|]. unfold remainder. now rewrite Z0.
- pose proof (R (ci + 1) ltac:(lia)) as J.
  destruct (T _ J) as [target Ht].
  exists (Z.rem (ci + 1) n), target. repeat split; try tauto; try lia.
  right. split; [reflexivity|]. unfold remainder. now rewrite Z0.
Qed.

End NavigationSafety.

(** X1: when the order is not empty and every field of the order has a
    ref, a ['prev'] or ['next'] request never fails, also from a field id
    that is not in the order: it focuses a field of the order or does
    nothing. *)
Theorem navigateToField_never_throws
  (fieldOrder : list string) (fields : list (string * bool))
  (direction currentId : string) :
  fieldOrder <> [] ->
  (forall k, In k fieldOrder -> property fields (Some k) <> None) ->
  direction = "prev"%string \/ direction = "next"%string ->
  navigateToField fieldOrder fields direction currentId = NoFocus
  \/ exists target,
       In target fieldOrder
       /\ navigateToField fieldOrder fields direction currentId
          = FocusField target.
Proof.
intros NE Refs D.
destruct (nextIndex_in_order fieldOrder direction currentId NE D)
  as (j & target & J & T & R).
assert (I : In target fieldOrder) by (now apply (nth_error_In _ (Z.to_nat j))).
destruct (property fields (Some target)) as [mounted|] eqn:P;
  [|now apply Refs in I].
rewrite (navigateToField_resolved fieldOrder fields direction currentId
           j target mounted R J T P).
destruct mounted; [right; now exists target | now left].
Qed.

Lemma navigateToField_never_throws_witness :
  navigateToField appFieldOrder (appFields (fun _ => true)) "prev" "helpInput"
  = NoFocus
  \/ exists target,
       In target appFieldOrder
       /\ navigateToField appFieldOrder (appFields (fun _ => true)) "prev"
            "helpInput"
          = FocusField target.
Proof.
apply (navigateToField_never_throws appFieldOrder
         (appFields (fun _ => true)) "prev" "helpInput").
- discriminate.
- intros k I. cbn in I.
  destruct I as [<-|[<-|[<-|[<-|[<-|[]]]]]]; discriminate.
- left. reflexivity.
Defined.

(** X2: a direction other than ['prev'] and ['next'] leaves the index
    undefined, and an empty order leaves every index out of range; unless
    the refs have a property named "undefined", reading [.current] of the
    missing ref then fails with a TypeError. *)
Theorem navigateToField_throws
  (fieldOrder : list string) (fields : list (string * bool))
  (direction currentId : string) :
  property fields None = None ->
  (direction <> "prev"%string /\ direction <> "next"%string)
  \/ fieldOrder = [] ->
  navigateToField fieldOrder fields direction currentId = TypeError.
Proof.
intros U [[NP NN] | ->]; unfold navigateToField.
- apply String.eqb_neq in NP, NN. rewrite NP, NN.
  cbn [element]. now rewrite U.
- cbn [List.length Z.of_nat]. unfold remainder. cbn [Z.eqb].
  destruct (String.eqb direction "prev"), (String.eqb direction "next");
    cbn [element]; now rewrite U.
Qed.

Lemma navigateToField_throws_witness :
  navigateToField appFieldOrder (appFields (fun _ => true)) "ArrowLeft"
    "minInput"
  = TypeError.
Proof.
apply (navigateToField_throws appFieldOrder (appFields (fun _ => true))
         "ArrowLeft" "minInput").
- reflexivity.
- left. split; discriminate.
Defined.

(** X3: in an order without duplicates whose fields are all mounted,
    ['next'] and ['prev'] undo each other: the field that ['next'] reaches
    leads back with ['prev'], and the field that ['prev'] reaches leads
    back with ['next']. *)
Theorem navigateToField_there_and_back
  (fieldOrder : list string) (fields : list (string * bool))
  (i : nat) (fromId : string) :
  NoDup fieldOrder ->
  nth_error fieldOrder i = Some fromId ->
  (forall k, In k fieldOrder -> property fields (Some k) = Some true) ->
  (exists target,
     navigateToField fieldOrder fields "next" fromId = FocusField target
     /\ navigateToField fieldOrder fields "prev" target = FocusField fromId)
  /\ (exists target,
        navigateToField fieldOrder fields "prev" fromId = FocusField target
        /\ navigateToField fieldOrder fields "next" target
           = FocusField fromId).
Proof.
intros ND Hi Refs.
set (n := Z.of_nat (List.length fieldOrder)).
assert (I : (0 <= Z.of_nat i < n)%Z).
{ split; [lia|]. apply Nat2Z.inj_lt. apply nth_error_Some. now rewrite Hi. }
assert (Step : forall (a : nat) x delta direction,
          nth_error fieldOrder a = Some x ->
          (direction = "prev"%string /\ delta = (-1)%Z)
          \/ (direction = "next"%string /\ delta = 1%Z) ->
          exists y,
            nth_error fieldOrder
              (Z.to_nat (wrapIndex (Z.of_nat a) delta n)) = Some y
            /\ navigateToField fieldOrder fields direction x = FocusField y).
{ intros a x delta direction Ha D.
  assert (A : (0 <= Z.of_nat a < n)%Z).
  { split; [lia|]. apply Nat2Z.inj_lt. apply nth_error_Some. now rewrite Ha. }
  assert (Dd : delta = (-1)%Z \/ delta = 1%Z)
    by (destruct D as [[_ ->]|[_ ->]]; auto).
  destruct (remainder_wraps fieldOrder (Z.of_nat a) delta A Dd)
    as (Prev & Next & J).
  fold n in Prev, Next, J.
  destruct (nth_error fieldOrder (Z.to_nat (wrapIndex (Z.of_nat a) delta n)))
    as [y|] eqn:Y; [|apply nth_error_None in Y; lia].
  exists y. split; [reflexivity|].
  assert (Iy : In y fieldOrder) by (now apply nth_error_In in Y).
  apply (navigateToField_resolved fieldOrder fields direction x
           (wrapIndex (Z.of_nat a) delta n) y true);
    try assumption; try lia; try (now apply Refs).
  rewrite (indexOf_nth fieldOrder ND a x Ha). fold n.
  destruct D as [[-> ->]|[-> ->]]; [left | right]; split; auto. }
assert (Back : forall delta,
          delta = (-1)%Z \/ delta = 1%Z ->
          Z.to_nat
            (wrapIndex
               (Z.of_nat (Z.to_nat (wrapIndex (Z.of_nat i) delta n)))
               (- delta) n)
          = i).
{ intros delta Dd. unfold wrapIndex.
  rewrite Z2Nat.id by (apply Z.mod_pos_bound; lia).
  rewrite Zplus_mod_idemp_l.
  replace (Z.of_nat i + delta + - delta)%Z with (Z.of_nat i) by lia.
  rewrite Z.mod_small by lia. apply Nat2Z.id. }
split.
- destruct (Step i fromId 1%Z "next"%string Hi) as (y & Y & Go);
    [right; auto|].
  exists y. split; [exact Go|].
  destruct (Step _ y (-1)%Z "prev"%string Y) as (z & Z & Return);
    [left; auto|].
  pose proof (Back 1%Z) as B. cbn [Z.opp] in B.
  rewrite B in Z by auto. rewrite Hi in Z. injection Z as <-.
  exact Return.
- destruct (Step i fromId (-1)%Z "prev"%string Hi) as (y & Y & Go);
    [left; auto|].
  exists y. split; [exact Go|].
  destruct (Step _ y 1%Z "next"%string Y) as (z & Z & Return);
    [right; auto|].
  pose proof (Back (-1)%Z) as B. cbn [Z.opp] in B.
  rewrite B in Z by auto. rewrite Hi in Z. injection Z as <-.
  exact Return.
Qed.

Lemma navigateToField_there_and_back_witness :
  (exists target,
     navigateToField appFieldOrder (appFields (fun _ => true)) "next"
       "decInput" = FocusField target
     /\ navigateToField appFieldOrder (appFields (fun _ => true)) "prev"
          target = FocusField "decInput")
  /\ (exists target,
        navigateToField appFieldOrder (appFields (fun _ => true)) "prev"
          "decInput" = FocusField target
        /\ navigateToField appFieldOrder (appFields (fun _ => true)) "next"
             target = FocusField "decInput").
Proof.
apply (navigateToField_there_and_back appFieldOrder
         (appFields (fun _ => true)) 4 "decInput" appFieldOrder_NoDup
         eq_refl).
intros k I. cbn in I.
destruct I as [<-|[<-|[<-|[<-|[<-|[]]]]]]; reflexivity.
Defined.

(** * Key presses *)

Section Keys.

Lemma includes_In l k : includes l k = true <-> In k l.
Proof.
unfold includes. rewrite existsb_exists. split.
- intros (x & I & E). apply String.eqb_eq in E. now subst x.
- intros I. exists k. split; [exact I | apply String.eqb_refl].
Qed.

Lemma includes_not_In l k : includes l k = false <-> ~ In k l.
Proof.
rewrite <- includes_In. destruct (includes l k); split; intros H.
- discriminate H.
- exfalso. now apply H.
- intros E. discriminate E.
- reflexivity.
Qed.


(** The arrow rule the two handlers share: up and down always navigate,
    left and right only from the ends of the text. *)
Lemma handleCustomKeyDown_requests e targetValue fieldId d i :
  In (NavigateToField d i) (handleCustomKeyDown e targetValue fieldId)
  <-> i = fieldId
      /\ ((d = "prev"%string
           /\ (key e = "ArrowUp"%string
               \/ (key e = "ArrowLeft"%string /\ selectionStart e = 0)))
          \/ (d = "next"%string
              /\ (key e = "ArrowDown"%string
                  \/ (key e = "ArrowRight"%string
                      /\ selectionStart e = List.length targetValue)))).
Proof.
destruct e as [k sel c m]. cbn [key selectionStart].
unfold handleCustomKeyDown. cbn [key selectionStart]. split.
- destruct (includes arrowKeys k); [|intros []].
  destruct (String.eqb_spec k "ArrowUp") as [->|_].
  { cbn [In]. intros [H|[H|[]]]; [discriminate|].
    injection H as <- <-. intuition. }
  destruct (String.eqb_spec k "ArrowDown") as [->|_].
  { cbn [In]. intros [H|[H|[]]]; [discriminate|].
    injection H as <- <-. intuition. }
  destruct (String.eqb_spec k "ArrowLeft") as [->|_];
    [destruct (Nat.eqb_spec sel 0) as [->|_]|]; cbn [andb].
  { cbn [In]. intros [H|[H|[]]]; [discriminate|].
    injection H as <- <-. intuition. }
  { cbn. intros []. }
  destruct (String.eqb_spec k "ArrowRight") as [->|_];
    [destruct (Nat.eqb_spec sel (List.length targetValue)) as [->|_]|];
    cbn [andb].
  { cbn [In]. intros [H|[H|[]]]; [discriminate|].
    injection H as <- <-. intuition. }
  { cbn. intros []. }
  intros [].
- intros [-> [[-> [->|[-> ->]]] | [-> [->|[-> ->]]]]]; cbn;
    rewrite ?Nat.eqb_refl; cbn; auto.
Qed.

Lemma handleKeyDown_arrow props st e :
  includes arrowKeys (key e) = true ->
  handleKeyDown props st e = handleCustomKeyDown e (value st) (id props).
Proof.
destruct e as [k sel c m]. cbn [key]. intros A.
apply includes_In in A. cbn [arrowKeys In] in A.
unfold handleKeyDown, handleCustomKeyDown. cbn [key selectionStart ctrlKey metaKey].
destruct A as [<-|[<-|[<-|[<-|[]]]]]; reflexivity.
Qed.

Lemma handleKeyDown_other props st e d i :
  includes arrowKeys (key e) = false ->
  ~ In (NavigateToField d i) (handleKeyDown props st e).
Proof.
intros A. unfold handleKeyDown. rewrite A.
repeat match goal with
       | |- context [if ?c then _ else _] => destruct c
       end; cbn [In]; intuition discriminate.
Qed.

End Keys.

(** X4: the field asks for navigation exactly on these key presses, with
    its own id: ArrowUp, and ArrowLeft with the cursor at position 0, ask
    for ['prev']; ArrowDown, and ArrowRight with the cursor at the end of
    the buffer, ask for ['next']. Modifier keys change nothing in this. *)
Theorem handleKeyDown_navigation
  (props : Props) (st : State) (e : KeyEvent) (d i : string) :
  In (NavigateToField d i) (handleKeyDown props st e)
  <-> i = id props
      /\ ((d = "prev"%string
           /\ (key e = "ArrowUp"%string
               \/ (key e = "ArrowLeft"%string /\ selectionStart e = 0)))
          \/ (d = "next"%string
              /\ (key e = "ArrowDown"%string
                  \/ (key e = "ArrowRight"%string
                      /\ selectionStart e = List.length (value st))))).
Proof.
destruct (includes arrowKeys (key e)) eqn:A.
- rewrite (handleKeyDown_arrow props st e A).
  apply handleCustomKeyDown_requests.
- split.
  + intros H. now apply (handleKeyDown_other props st e d i A) in H.
  + intros [_ H]. apply includes_not_In in A. exfalso. apply A.
    cbn [arrowKeys In].
    destruct H as [[_ [->|[-> _]]] | [_ [->|[-> _]]]]; auto.
Qed.

(** X5: the configuration inputs navigate by the rule of the number
    field: on an arrow key [handleKeyDown] of the field and
    [handleCustomKeyDown] of the form do the same for the same text, cursor
    and id; on any other key [handleCustomKeyDown] does nothing. *)
Theorem handleCustomKeyDown_mirrors_field
  (props : Props) (st : State) (e : KeyEvent) :
  (includes arrowKeys (key e) = true ->
   handleKeyDown props st e = handleCustomKeyDown e (value st) (id props))
  /\ (includes arrowKeys (key e) = false ->
      handleCustomKeyDown e (value st) (id props) = []).
Proof.
split.
- apply handleKeyDown_arrow.
- intros A. unfold handleCustomKeyDown. now rewrite A.
Qed.

Lemma handleCustomKeyDown_mirrors_field_witness :
  handleKeyDown starProps
    {| value := str "12"; error := false |}
    {| key := "ArrowRight"; selectionStart := 2; ctrlKey := false;
       metaKey := false |}
  = handleCustomKeyDown
      {| key := "ArrowRight"; selectionStart := 2; ctrlKey := false;
         metaKey := false |} (str "12") "mainInput".
Proof.
apply (proj1 (handleCustomKeyDown_mirrors_field starProps
                {| value := str "12"; error := false |}
                {| key := "ArrowRight"; selectionStart := 2;
                   ctrlKey := false; metaKey := false |})).
reflexivity.
Defined.

Section KeysServed.
Variable fieldOrder : list string.
Variable fields : list (string * bool).
Hypothesis order_not_empty : fieldOrder <> [].
Hypothesis every_field_has_a_ref :
  forall k, In k fieldOrder -> property fields (Some k) <> None.

Lemma navigateToField_no_TypeError direction currentId :
  direction = "prev"%string \/ direction = "next"%string ->
  navigateToField fieldOrder fields direction currentId <> TypeError.
Proof.
intros D.
destruct (nextIndex_in_order fieldOrder direction currentId
            order_not_empty D) as (j & target & J & T & R).
assert (I : In target fieldOrder) by (now apply (nth_error_In _ (Z.to_nat j))).
destruct (property fields (Some target)) as [mounted|] eqn:P;
  [|now apply every_field_has_a_ref in I].
rewrite (navigateToField_resolved fieldOrder fields direction currentId
           j target mounted R J T P).
destruct mounted; discriminate.
Qed.

Lemma served_no_TypeError log :
  (forall d i, In (NavigateToField d i) log ->
               d = "prev"%string \/ d = "next"%string) ->
  Forall (fun r => r <> TypeError) (served fieldOrder fields log).
Proof.
intros H. apply Forall_forall. intros r I.
unfold served in I. apply in_flat_map in I. destruct I as (a & Ia & Ir).
destruct a; try contradiction.
destruct Ir as [<-|[]].
apply navigateToField_no_TypeError. now apply (H direction fieldId).
Qed.

End KeysServed.

(** X6: served by the form's [navigateToField], no key press in the number
    field and none in an input wired to [handleCustomKeyDown] ends in a
    TypeError, provided the order is not empty and each of its fields has a
    ref: the handlers only ever pass ['prev'] or ['next']. *)
Theorem key_navigation_never_throws
  (fieldOrder : list string) (fields : list (string * bool))
  (props : Props) (st : State) (e : KeyEvent)
  (targetValue : jsstring) (fieldId : string) :
  fieldOrder <> [] ->
  (forall k, In k fieldOrder -> property fields (Some k) <> None) ->
  Forall (fun r => r <> TypeError)
    (served fieldOrder fields (handleKeyDown props st e))
  /\ Forall (fun r => r <> TypeError)
       (served fieldOrder fields
          (handleCustomKeyDown e targetValue fieldId)).
Proof.
intros NE Refs.
assert (C : forall v f d i,
          In (NavigateToField d i) (handleCustomKeyDown e v f) ->
          d = "prev"%string \/ d = "next"%string).
{ intros v f d i H. apply handleCustomKeyDown_requests in H.
  destruct H as [_ [[-> _]|[-> _]]]; auto. }
split; apply served_no_TypeError; try assumption.
- intros d i H. destruct (includes arrowKeys (key e)) eqn:A.
  + rewrite (handleKeyDown_arrow props st e A) in H. now apply C in H.
  + now apply (handleKeyDown_other props st e d i A) in H.
- apply C.
Qed.

Lemma key_navigation_never_throws_witness :
  Forall (fun r => r <> TypeError)
    (served appFieldOrder (appFields (fun _ => true))
       (handleKeyDown starProps {| value := str "12"; error := false |}
          {| key := "ArrowUp"; selectionStart := 1; ctrlKey := false;
             metaKey := false |}))
  /\ Forall (fun r => r <> TypeError)
       (served appFieldOrder (appFields (fun _ => true))
          (handleCustomKeyDown
             {| key := "ArrowUp"; selectionStart := 1; ctrlKey := false;
                metaKey := false |} (str "*") "minInput")).
Proof.
apply (key_navigation_never_throws appFieldOrder
         (appFields (fun _ => true))).
- discriminate.
- intros k I. cbn in I.
  destruct I as [<-|[<-|[<-|[<-|[<-|[]]]]]]; discriminate.
Defined.

(** X7: in the revision of the form that filters its configuration
    inputs, [handleDigitsInput] lets a key through only when it is a
    digit, ['*'] or Backspace and, once the text holds a ['*'], only when it
    is Backspace; every other key has its default prevented. An arrow key
    is never let through, so these inputs never ask for navigation. *)
Theorem handleDigitsInput_filters
  (fieldOrder : list string) (fields : list (string * bool))
  (e : KeyEvent) (targetValue : jsstring) (fieldId : string) :
  (handleDigitsInput e targetValue fieldId = []
   <-> In (key e) digitKeys
       /\ (~ In 42%N targetValue \/ key e = "Backspace"%string))
  /\ (handleDigitsInput e targetValue fieldId <> [] ->
      handleDigitsInput e targetValue fieldId = [PreventDefault])
  /\ served fieldOrder fields (handleDigitsInput e targetValue fieldId) = [].
Proof.
destruct e as [k sel c m]. cbn [key].
assert (Star : existsb (N.eqb 42) targetValue = true <-> In 42%N targetValue).
{ rewrite existsb_exists. split.
  - intros (x & I & E). apply N.eqb_eq in E. now subst x.
  - intros I. exists 42%N. split; [exact I | reflexivity]. }
unfold handleDigitsInput. cbn [key].
destruct (includes digitKeys k) eqn:D; cbn [negb orb].
- pose proof (proj1 (includes_In _ _) D) as I.
  assert (Quiet : handleCustomKeyDown
                    {| key := k; selectionStart := sel; ctrlKey := c;
                       metaKey := m |} targetValue fieldId = []).
  { cbn [digitKeys In] in I.
    repeat (destruct I as [<-|I]; [reflexivity|]). destruct I. }
  rewrite Quiet.
  destruct (existsb (N.eqb 42) targetValue) eqn:S; cbn [andb].
  + destruct (String.eqb_spec k "Backspace") as [->|NB]; cbn [negb].
    * split; [split; [intros _; split; [exact I | now right] | reflexivity]|].
      split; [intros H; now contradiction H | reflexivity].
    * split; [split|].
      -- intros H. discriminate H.
      -- intros [_ [NS | B]]; [|contradiction].
         exfalso. apply NS. now apply Star.
      -- split; [reflexivity | reflexivity].
  + split; [split; [intros _; split; [exact I|] | reflexivity]|].
    * left. intros H. apply Star in H. discriminate H.
    * split; [intros H; now contradiction H | reflexivity].
- apply includes_not_In in D. split; [split|].
  + intros H. discriminate H.
  + intros [I _]. contradiction.
  + split; [reflexivity | reflexivity].
Qed.



Example dispatchKeyDown_Enter_commits :
  commit {| value := str "5"; error := false |}
    (dispatchKeyDown (num := float) rangeProps
       {| value := str "5"; error := false |}
       {| key := "Enter"; selectionStart := 1; ctrlKey := false;
          metaKey := false |})
  = {| value := str "5.00"; error := true |}.
Proof. vm_compute. reflexivity. Qed.

(** X9: the field blurs itself exactly on Tab and on Enter, with or
    without a modifier key, and prevents the default of both. *)
Theorem handleKeyDown_blurs_on_Tab_and_Enter
  (props : Props) (st : State) (e : KeyEvent) :
  (In Blur (handleKeyDown props st e)
   <-> key e = "Tab"%string \/ key e = "Enter"%string)
  /\ (In Blur (handleKeyDown props st e) ->
      handleKeyDown props st e = [PreventDefault; Blur]).
Proof.
destruct e as [k sel c m]. cbn [key].
assert (F : In Blur (handleKeyDown props st
                       {| key := k; selectionStart := sel; ctrlKey := c;
                          metaKey := m |}) ->
            (k = "Tab"%string \/ k = "Enter"%string)
            /\ handleKeyDown props st
                 {| key := k; selectionStart := sel; ctrlKey := c;
                    metaKey := m |} = [PreventDefault; Blur]).
{ unfold handleKeyDown. cbn [key selectionStart ctrlKey metaKey].
  destruct (String.eqb k ",");
    [cbn [In]; intuition discriminate|].
  destruct (String.eqb k "=" && negb (sel =? 0));
    [cbn [In]; intuition discriminate|].
  destruct (includes ["Tab"; "Enter"]%string k) eqn:T.
  - intros _. apply includes_In in T. cbn [In] in T.
    split; [|reflexivity]. destruct T as [<-|[<-|[]]]; auto.
  - repeat match goal with
           | |- context [if ?c then _ else _] => destruct c
           end; cbn [In]; intuition discriminate. }
split; [split|].
- intros H. now apply F.
- intros [-> | ->]; cbn; auto.
- intros H. now apply F.
Qed.

(** X10: which keys the field lets through untouched, arrow keys aside: a
    key passes when it is not the comma, not Tab or Enter, not an ['=']
    away from cursor position 0, and is one of the allowed characters, a
    control key, or pressed with Ctrl or Meta. Every other key has its
    default prevented. *)
Theorem handleKeyDown_lets_through
  (props : Props) (st : State) (e : KeyEvent) :
  includes arrowKeys (key e) = false ->
  (handleKeyDown props st e = []
   <-> key e <> ","%string
       /\ (key e = "="%string -> selectionStart e = 0)
       /\ key e <> "Tab"%string
       /\ key e <> "Enter"%string
       /\ (In (key e) allowedChars \/ In (key e) controlKeys
           \/ ctrlKey e = true \/ metaKey e = true))
  /\ (handleKeyDown props st e <> [] ->
      exists rest, handleKeyDown props st e = PreventDefault :: rest).
Proof.
destruct e as [k sel c m]. cbn [key selectionStart ctrlKey metaKey].
intros A. unfold handleKeyDown.
cbn [key selectionStart ctrlKey metaKey]. rewrite A.
destruct (String.eqb_spec k ",") as [->|NC].
{ split; [split; [intros H; discriminate H | intros [H _]; now contradiction H]|].
  intros _. eexists. reflexivity. }
destruct (String.eqb_spec k "=") as [->|NE]; cbn [andb].
{ destruct (Nat.eqb_spec sel 0) as [->|NZ]; cbn [negb].
  - cbn. split; [split; [intros _|reflexivity]|intros H; now contradiction H].
    repeat split; try discriminate. left. cbn. tauto.
  - split; [split; [intros H; discriminate H|]|intros _; eexists; reflexivity].
    intros (_ & Z & _). exfalso. now apply NZ, Z. }
destruct (includes ["Tab"; "Enter"]%string k) eqn:T.
{ apply includes_In in T. cbn [In] in T.
  split; [split; [intros H; discriminate H|]|intros _; eexists; reflexivity].
  intros (_ & _ & NT & NEn & _). exfalso.
  destruct T as [<-|[<-|[]]]; [now apply NT | now apply NEn]. }
apply includes_not_In in T. cbn [In] in T.
destruct (includes allowedChars k) eqn:Al; cbn [negb andb].
{ apply includes_In in Al.
  split; [split; [intros _|reflexivity]|intros H; now contradiction H].
  repeat split; auto; try (intros ->; tauto). }
destruct (includes controlKeys k) eqn:Co; cbn [negb andb].
{ apply includes_In in Co.
  split; [split; [intros _|reflexivity]|intros H; now contradiction H].
  repeat split; auto; try (intros ->; tauto). }
apply includes_not_In in Al, Co.
destruct c, m; cbn [orb negb];
  try (split; [split; [intros _|reflexivity]|intros H; now contradiction H];
       repeat split; auto; try (intros ->; tauto); fail).
split; [split; [intros H; discriminate H|]|intros _; eexists; reflexivity].
intros (_ & _ & _ & _ & [H|[H|[H|H]]]); exfalso;
  [now apply Al | now apply Co | discriminate H | discriminate H].
Qed.

Lemma handleKeyDown_lets_through_witness :
  handleKeyDown starProps {| value := str "12"; error := false |}
    {| key := "="; selectionStart := 0; ctrlKey := false; metaKey := false |}
  = [].
Proof.
apply (proj1 (handleKeyDown_lets_through starProps
                {| value := str "12"; error := false |}
                {| key := "="; selectionStart := 0; ctrlKey := false;
                   metaKey := false |} eq_refl)).
cbn. repeat split; try discriminate. tauto.
Defined.

(** * More on the field *)

Section FieldShapes.
Context {num : Type} {JS : JSNumber num} {MJ : MathJS num}.

Lemma formatAndStore_shape props n :
  (toFixed n (decimals props) = None /\ formatAndStore props n = [Throw])
  \/ exists digits,
       toFixed n (decimals props) = Some digits
       /\ formatAndStore props n
          = SetValue (addThousandsSeparators digits)
              :: (if onChange props
                  then [OnChange (addThousandsSeparators digits)]
                  else []).
Proof.
unfold formatAndStore. destruct (toFixed n (decimals props)) as [digits|].
- right. exists digits. split; reflexivity.
- left. split; reflexivity.
Qed.

(** The three ways a blur can go. *)
Lemma handleBlur_shape props st :
  handleBlur props st = []
  \/ handleBlur props st = [SetError false; SetError true; FocusLater]
  \/ exists w,
       value st <> []
       /\ evaluateFormula props (removeThousandsSeparators (value st))
          = Some w
       /\ handleBlur props st
          = [SetError false; SetError (outOfRange props (parseFloat w))]
            ++ formatAndStore props (parseFloat w).
Proof.
destruct (list_eq_dec N.eq_dec (value st) []) as [Empty|NE].
- left. unfold handleBlur.
  now rewrite (proj2 (jsstring_eqb_true _ _) Empty).
- destruct (evaluateFormula props (removeThousandsSeparators (value st)))
    as [w|] eqn:E.
  + right. right. exists w. split; [exact NE|]. split; [reflexivity|].
    now apply handleBlur_evaluated.
  + right. left. now apply handleBlur_formula_error.
Qed.

(** The two ways a wheel event can go. *)
Lemma handleWheel_shape props st deltaY :
  handleWheel props st deltaY = [PreventDefault]
  \/ exists n,
       handleWheel props st deltaY
       = [PreventDefault; SetError (outOfRange props n)]
         ++ formatAndStore props n.
Proof.
destruct (list_eq_dec N.eq_dec (step props) (str "*")) as [S|S].
- left. now apply handleWheel_unstepped.
- right. eexists. now apply handleWheel_stepped.
Qed.

(** After a prefix that writes no buffer, what [formatAndStore] stores
    is the buffer, and the callback gets the same text. *)
Lemma stored_after_prefix props n pre st :
  existsb setsValue pre = false ->
  existsb isOnChange pre = false ->
  (forall v, In (SetValue v) (pre ++ formatAndStore props n) ->
             exists digits,
               toFixed n (decimals props) = Some digits
               /\ v = addThousandsSeparators digits
               /\ value (commit st (pre ++ formatAndStore props n)) = v)
  /\ (forall v, In (OnChange v) (pre ++ formatAndStore props n) ->
                onChange props = true
                /\ value (commit st (pre ++ formatAndStore props n)) = v)
  /\ List.length (filter isOnChange (pre ++ formatAndStore props n)) <= 1.
Proof.
intros V C.
assert (NV : forall v, ~ In (SetValue v) pre).
{ intros v I. assert (X : existsb setsValue pre = true)
    by (apply existsb_exists; exists (SetValue v); auto).
  rewrite V in X. discriminate X. }
assert (NC : forall v, ~ In (OnChange v) pre).
{ intros v I. assert (X : existsb isOnChange pre = true)
    by (apply existsb_exists; exists (OnChange v); auto).
  rewrite C in X. discriminate X. }
assert (FC : filter isOnChange pre = []).
{ clear - C. induction pre as [|a rest IH]; [reflexivity|].
  cbn [existsb] in C. apply orb_false_iff in C. destruct C as [Ca Cr].
  cbn [filter]. rewrite Ca. now apply IH. }
rewrite filter_app, FC. cbn [app].
destruct (formatAndStore_shape props n) as [[_ ->] | (digits & F & ->)].
- split; [|split].
  + intros v I. apply in_app_or in I. destruct I as [I|[I|[]]];
      [now apply NV in I | discriminate I].
  + intros v I. apply in_app_or in I. destruct I as [I|[I|[]]];
      [now apply NC in I | discriminate I].
  + cbn. lia.
- assert (S : value (commit st
                       (pre ++ SetValue (addThousandsSeparators digits)
                          :: (if onChange props
                              then [OnChange (addThousandsSeparators digits)]
                              else [])))
              = addThousandsSeparators digits).
  { rewrite commit_app. now destruct (onChange props). }
  split; [|split].
  + intros v I. apply in_app_or in I. destruct I as [I|[I|I]].
    * now apply NV in I.
    * injection I as <-. exists digits. auto.
    * destruct (onChange props); [destruct I as [I|[]]; discriminate I
                                 | destruct I].
  + intros v I. apply in_app_or in I. destruct I as [I|[I|I]].
    * now apply NC in I.
    * discriminate I.
    * destruct (onChange props); [|destruct I].
      destruct I as [I|[]]. injection I as <-. auto.
  + destruct (onChange props); cbn; lia.
Qed.

End FieldShapes.

(** X11: gaining focus removes every separator character from the buffer
    and touches nothing else: the error flag stays, a second focus changes
    nothing more, and a buffer without separators is stored back as it
    is. *)
Theorem handleFocus_strips_separators (st : State) :
  let focused := commit st (handleFocus st) in
  Forall (fun c => isWhiteSpace c = false) (value focused)
  /\ error focused = error st
  /\ commit focused (handleFocus focused) = focused
  /\ (Forall (fun c => isWhiteSpace c = false) (value st) -> focused = st).
Proof.
destruct st as [v flag].
unfold handleFocus. cbn [commit fold_left apply value error].
assert (W : Forall (fun c => isWhiteSpace c = false)
              (removeThousandsSeparators v)).
{ apply Forall_forall. intros c I. apply filter_In in I.
  destruct I as [_ I]. now destruct (isWhiteSpace c). }
repeat split.
- exact W.
- now rewrite (remove_without_separators _ W).
- intros H. now rewrite (remove_without_separators _ H).
Qed.

(** X12: the change callback is called at most once per blur and per
    wheel event, only when the prop was passed, and its argument is the
    text that the handler leaves in the buffer. *)
Theorem onChange_gets_the_buffer
  {num : Type} {JS : JSNumber num} {MJ : MathJS num}
  (props : Props) (st : State) (deltaY : num) :
  (forall v, In (OnChange v) (handleBlur props st) ->
             onChange props = true
             /\ value (commit st (handleBlur props st)) = v)
  /\ (forall v, In (OnChange v) (handleWheel props st deltaY) ->
                onChange props = true
                /\ value (commit st (handleWheel props st deltaY)) = v)
  /\ List.length (filter isOnChange (handleBlur props st)) <= 1
  /\ List.length (filter isOnChange (handleWheel props st deltaY)) <= 1.
Proof.
assert (B : (forall v, In (OnChange v) (handleBlur props st) ->
                       onChange props = true
                       /\ value (commit st (handleBlur props st)) = v)
            /\ List.length (filter isOnChange (handleBlur props st)) <= 1).
{ destruct (handleBlur_shape props st) as [-> | [-> | (w & _ & _ & ->)]].
  - split; [intros v [] | cbn; lia].
  - split; [cbn [In]; intuition discriminate | cbn; lia].
  - destruct (stored_after_prefix props (parseFloat w)
                [SetError false; SetError (outOfRange props (parseFloat w))]
                st eq_refl eq_refl) as (_ & C & L).
    split; assumption. }
assert (W : (forall v, In (OnChange v) (handleWheel props st deltaY) ->
                       onChange props = true
                       /\ value (commit st (handleWheel props st deltaY)) = v)
            /\ List.length (filter isOnChange (handleWheel props st deltaY))
               <= 1).
{ destruct (handleWheel_shape props st deltaY) as [-> | (n & ->)].
  - split; [cbn [In]; intuition discriminate | cbn; lia].
  - destruct (stored_after_prefix props n
                [PreventDefault; SetError (outOfRange props n)]
                st eq_refl eq_refl) as (_ & C & L).
    split; assumption. }
destruct B as [B1 B2], W as [W1 W2]. auto.
Qed.

(** X13: on the binary64 platform, whenever a blur or a wheel event stores
    a text, it is the grouping of digits that [toFixed] printed, and
    gaining focus afterwards shows exactly those digits: focus undoes the
    grouping of blur and wheel. *)
Theorem handleFocus_undoes_grouping
  {MJ : MathJS float} (props : Props) (st : State) (deltaY : float)
  (log : list action) (v : jsstring) :
  log = handleBlur props st \/ log = handleWheel props st deltaY ->
  In (SetValue v) log ->
  let stored := commit st log in
  exists n digits,
    toFixed n (decimals props) = Some digits
    /\ value stored = addThousandsSeparators digits
    /\ value (commit stored (handleFocus stored)) = digits.
Proof.
intros L I stored.
assert (S : exists n digits,
          toFixed n (decimals props) = Some digits
          /\ value stored = addThousandsSeparators digits).
{ unfold stored. destruct L as [-> | ->].
  - destruct (handleBlur_shape props st) as [E | [E | (w & _ & _ & E)]];
      rewrite E in I |- *.
    + destruct I.
    + cbn [In] in I. intuition discriminate.
    + destruct (stored_after_prefix props (parseFloat w)
                  [SetError false; SetError (outOfRange props (parseFloat w))]
                  st eq_refl eq_refl) as (V & _ & _).
      destruct (V v I) as (digits & F & -> & Val).
      exists (parseFloat w), digits. auto.
  - destruct (handleWheel_shape props st deltaY) as [E | (n & E)];
      rewrite E in I |- *.
    + cbn [In] in I. intuition discriminate.
    + destruct (stored_after_prefix props n
                  [PreventDefault; SetError (outOfRange props n)]
                  st eq_refl eq_refl) as (V & _ & _).
      destruct (V v I) as (digits & F & -> & Val).
      exists n, digits. auto. }
destruct S as (n & digits & F & Val).
exists n, digits. split; [exact F|]. split; [exact Val|].
destruct stored as [sv sflag]. cbn in Val |- *. subst sv.
now apply (formatted_value_roundtrip n (decimals props)).
Qed.

Lemma handleFocus_undoes_grouping_witness :
  let st := {| value := str "1234567.5"; error := false |} in
  let stored := commit st (handleBlur (num := float) starProps st) in
  exists n digits,
    toFixed n (decimals (num := float) starProps) = Some digits
    /\ value stored = addThousandsSeparators digits
    /\ value (commit stored (handleFocus stored)) = digits.
Proof.
apply (handleFocus_undoes_grouping starProps
         {| value := str "1234567.5"; error := false |} 0%float
         (handleBlur (num := float) starProps
            {| value := str "1234567.5"; error := false |})
         (str "1 234 567.50")).
- left. reflexivity.
- vm_compute. auto.
Defined.

Example handleFocus_after_handleBlur_millions :
  let st := {| value := str "1234567.5"; error := false |} in
  let stored := commit st (handleBlur (num := float) starProps st) in
  stored = {| value := str "1 234 567.50"; error := false |}
  /\ commit stored (handleFocus stored)
     = {| value := str "1234567.50"; error := false |}.
Proof. vm_compute. split; reflexivity. Qed.

(** X14: take a blur of a buffer that is not empty, whose formula, if
    it is one, evaluates, and whose working text (the buffer without
    separators, or the printed result of the formula) parses to a number
    that violates neither bound. It leaves the error flag cleared, also
    when it was set before, and asks for no focus. It stores the grouped
    digits when [toFixed] prints the number; when [toFixed] refuses the
    decimals it stops with the RangeError and the buffer stays. *)
Theorem handleBlur_in_range
  {num : Type} {JS : JSNumber num} {MJ : MathJS num}
  {Laws : JSNumberLaws num}
  (props : Props) (st : State) (w : jsstring) :
  value st <> [] ->
  evaluateFormula props (removeThousandsSeparators (value st)) = Some w ->
  violatesRange props (parseFloat w) = false ->
  error (commit st (handleBlur props st)) = false
  /\ existsb isFocus (handleBlur props st) = false
  /\ (forall digits,
        toFixed (parseFloat w) (decimals props) = Some digits ->
        commit st (handleBlur props st)
        = {| value := addThousandsSeparators digits; error := false |})
  /\ (toFixed (parseFloat w) (decimals props) = None ->
      handleBlur props st = [SetError false; SetError false; Throw]
      /\ value (commit st (handleBlur props st)) = value st).
Proof.
intros NE E V.
rewrite (handleBlur_evaluated props st w NE E).
rewrite outOfRange_violatesRange, V.
unfold formatAndStore.
destruct (toFixed (parseFloat w) (decimals props)) as [digits|].
- repeat split; try (now destruct (onChange props)).
  intros d D. injection D as <-. now destruct (onChange props).
- repeat split. intros d D. discriminate D.
Qed.

Lemma handleBlur_in_range_witness :
  let st := {| value := str "=7+8"; error := true |} in
  commit st (handleBlur (num := float) rangeProps st)
  = {| value := str "15.00"; error := false |}.
Proof.
destruct (handleBlur_in_range (num := float) rangeProps
            {| value := str "=7+8"; error := true |} (str "15.00"))
  as (_ & _ & Stores & _).
- discriminate.
- vm_compute. reflexivity.
- vm_compute. reflexivity.
- apply (Stores (str "15.00")). vm_compute. reflexivity.
Defined.

(** X15: separators in the buffer make no difference to a commit: two
    non-empty buffers that are equal once their separators are removed
    give the same blur, and any two such buffers give the same wheel
    step. So a blur does the same before and after a focus stripped the
    buffer, unless the buffer holds separators only. *)
Theorem commit_ignores_separators
  {num : Type} {JS : JSNumber num} {MJ : MathJS num}
  (props : Props) (st st' : State) (deltaY : num) :
  removeThousandsSeparators (value st) = removeThousandsSeparators (value st') ->
  (value st <> [] -> value st' <> [] ->
   handleBlur props st = handleBlur props st')
  /\ handleWheel props st deltaY = handleWheel props st' deltaY
  /\ (removeThousandsSeparators (value st) <> [] ->
      handleBlur props (commit st (handleFocus st)) = handleBlur props st).
Proof.
intros R. split; [|split].
- intros NE NE'. unfold handleBlur.
  rewrite (proj2 (jsstring_eqb_false _ _) NE).
  rewrite (proj2 (jsstring_eqb_false _ _) NE'). now rewrite R.
- unfold handleWheel. now rewrite R.
- intros NE. destruct st as [v flag].
  unfold handleFocus, handleBlur.
  cbn [commit fold_left apply value error] in *.
  assert (NV : v <> []) by (now apply removeThousandsSeparators_nonempty).
  rewrite (proj2 (jsstring_eqb_false _ _) NE).
  rewrite (proj2 (jsstring_eqb_false _ _) NV).
  assert (W : Forall (fun c => isWhiteSpace c = false)
                (removeThousandsSeparators v)).
  { apply Forall_forall. intros c I. apply filter_In in I.
    destruct I as [_ I]. now destruct (isWhiteSpace c). }
  now rewrite (remove_without_separators _ W).
Qed.

Lemma commit_ignores_separators_witness :
  handleBlur (num := float) rangeProps
    {| value := str "1 2 00.5"; error := false |}
  = handleBlur (num := float) rangeProps
      {| value := str "1200.5"; error := true |}.
Proof.
apply (proj1 (commit_ignores_separators (num := float) rangeProps
                {| value := str "1 2 00.5"; error := false |}
                {| value := str "1200.5"; error := true |} 0%float
                eq_refl)); discriminate.
Defined.

(** X16: when the decimals prop is one that [toFixed] refuses (outside 0
    to 100), no blur gets a value into the buffer or to the callback. A
    formula is then reported as a failed formula, because the refusal is
    caught together with evaluation errors; any other text makes the
    handler stop with the uncaught RangeError after the range check. *)
Theorem handleBlur_decimals_refused
  {num : Type} {JS : JSNumber num} {MJ : MathJS num}
  (props : Props) (st : State) :
  (forall x, toFixed x (decimals props) = None) ->
  (forall r, resultToFixed r (decimals props) = None) ->
  value st <> [] ->
  value (commit st (handleBlur props st)) = value st
  /\ existsb isOnChange (handleBlur props st) = false
  /\ (startsWith (removeThousandsSeparators (value st)) Ch.equals = true ->
      handleBlur props st = [SetError false; SetError true; FocusLater])
  /\ (startsWith (removeThousandsSeparators (value st)) Ch.equals = false ->
      exists flag,
        handleBlur props st = [SetError false; SetError flag; Throw]).
Proof.
intros T R NE.
destruct (startsWith (removeThousandsSeparators (value st)) Ch.equals) eqn:S.
- assert (E : evaluateFormula props (removeThousandsSeparators (value st))
              = None).
  { unfold evaluateFormula. rewrite S.
    destruct (evaluate (tl (removeThousandsSeparators (value st))));
      [apply R | reflexivity]. }
  rewrite (handleBlur_formula_error props st NE E).
  repeat split; try reflexivity. intros H. discriminate H.
- assert (E : evaluateFormula props (removeThousandsSeparators (value st))
              = Some (removeThousandsSeparators (value st))).
  { unfold evaluateFormula. now rewrite S. }
  rewrite (handleBlur_evaluated props st _ NE E).
  unfold formatAndStore. rewrite T.
  repeat split; try reflexivity.
  + intros H. discriminate H.
  + intros _. eexists. reflexivity.
Qed.

(** On binary64 [toFixed] refuses exactly the digit counts that truncate
    to less than 0 or more than 100, and the infinite ones. *)
Lemma toFixed_refuses_iff x fractionDigits :
  Binary64.toFixed x fractionDigits = None
  <-> match Binary64.toIntegerOrInfinity fractionDigits with
      | Binary64.Finite f => (f < 0 \/ 100 < f)%Z
      | Binary64.Infinite => True
      end.
Proof.
unfold Binary64.toFixed.
destruct (Binary64.toIntegerOrInfinity fractionDigits) as [f|];
  [|split; auto].
destruct (Z.ltb_spec f 0) as [Lo|Lo], (Z.ltb_spec 100 f) as [Hi|Hi];
  cbn [orb]; split; intros R;
  try reflexivity; try discriminate R; try lia.
Qed.

Lemma toFixed_refuses_101 x :
  toFixed x (decimals (num := float) manyDecimalsProps) = None.
Proof.
cbn [toFixed binary64]. unfold Binary64.toFixed.
replace (Binary64.toIntegerOrInfinity (decimals manyDecimalsProps))
  with (Binary64.Finite 101) by (vm_compute; reflexivity).
reflexivity.
Qed.

Lemma handleBlur_decimals_refused_witness :
  let st := {| value := str "=2+3"; error := false |} in
  value (commit st (handleBlur (num := float) manyDecimalsProps st))
  = value st
  /\ existsb isOnChange (handleBlur (num := float) manyDecimalsProps st)
     = false
  /\ (startsWith (removeThousandsSeparators (value st)) Ch.equals = true ->
      handleBlur (num := float) manyDecimalsProps st
      = [SetError false; SetError true; FocusLater])
  /\ (startsWith (removeThousandsSeparators (value st)) Ch.equals = false ->
      exists flag,
        handleBlur (num := float) manyDecimalsProps st
        = [SetError false; SetError flag; Throw]).
Proof.
apply (handleBlur_decimals_refused (num := float) manyDecimalsProps
         {| value := str "=2+3"; error := false |}).
- exact toFixed_refuses_101.
- exact toFixed_refuses_101.
- discriminate.
Defined.

Example handleBlur_decimals_refused_plain_text :
  handleBlur (num := float) manyDecimalsProps
    {| value := str "5"; error := false |}
  = [SetError false; SetError false; Throw].
Proof. vm_compute. reflexivity. Qed.

(** X17: the two revisions of the field judge the range alike: the flag
    that [validateMinMax] of the forwardRef revision sets is the negation
    of what [validateMinMax] of the earlier revision returns. *)
Theorem validateMinMax_revisions_agree
  {num : Type} {JS : JSNumber num} {MJ : MathJS num}
  {Laws : JSNumberLaws num}
  (props : Props) (n : num) :
  validateMinMax props n = [SetError (negb (Legacy.validateMinMax props n))].
Proof.
unfold validateMinMax, Legacy.validateMinMax.
rewrite outOfRange_violatesRange. unfold violatesRange.
now rewrite negb_involutive.
Qed.

Lemma validateMinMax_revisions_agree_witness :
  validateMinMax (num := float) rangeProps 25%float
  = [SetError (negb (Legacy.validateMinMax (num := float) rangeProps
                       25%float))].
Proof.
exact (validateMinMax_revisions_agree (num := float) rangeProps 25%float).
Defined.

(** X18: a bound that is ['*'] or does not parse as a number rejects
    nothing, and a value that is not a number is rejected by no bound: with
    two such bounds, or for such a value, the range check never raises the
    error flag. *)
Theorem validateMinMax_without_bounds
  {num : Type} {JS : JSNumber num} {MJ : MathJS num}
  {Laws : JSNumberLaws num}
  (props : Props) (n : num) :
  (min props = str "*" \/ isNaN (parseFloat (min props)) = true)
  /\ (max props = str "*" \/ isNaN (parseFloat (max props)) = true)
  \/ isNaN n = true ->
  validateMinMax props n = [SetError false].
Proof.
intros H. unfold validateMinMax. f_equal. f_equal.
destruct H as [[Hmin Hmax] | Hn]; [|now apply outOfRange_NaN].
rewrite outOfRange_violatesRange. unfold violatesRange.
assert (A : negb (jsstring_eqb (min props) (str "*"))
            && lessThan n (parseFloat (min props)) = false).
{ destruct Hmin as [-> | Hmin]; [reflexivity|].
  rewrite (lessThan_NaN_r n _ Hmin). apply andb_false_r. }
assert (B : negb (jsstring_eqb (max props) (str "*"))
            && lessThan (parseFloat (max props)) n = false).
{ destruct Hmax as [-> | Hmax]; [reflexivity|].
  rewrite (lessThan_NaN_l _ n Hmax). apply andb_false_r. }
now rewrite A, B.
Qed.

Lemma validateMinMax_without_bounds_witness :
  validateMinMax (num := float)
    {| min := []; max := str "*"; step := str "*"; dec := str "*";
       id := "mainInput"; onChange := false |} 1000000%float
  = [SetError false].
Proof.
apply (validateMinMax_without_bounds (num := float)).
left. split; [right | left]; reflexivity.
Defined.

(** X19: in the earlier revision a blur ends in one of two ways. Either
    it sets the error flag, keeps the focus and writes nothing, or it
    leaves the flag cleared and keeps no focus; and whatever it stores
    comes from text that parsed to a number inside the range. *)
Theorem legacy_handleBlur_stores_valid_numbers_only
  {num : Type} {JS : JSNumber num} {MJ : MathJS num}
  (props : Props) (st : State) :
  let log := Legacy.handleBlur props st in
  error (commit st log) = existsb isFocus log
  /\ (existsb isFocus log = true ->
      value (commit st log) = value st /\ existsb isOnChange log = false)
  /\ (forall v, In (SetValue v) log ->
                exists w,
                  evaluateFormula props (removeThousandsSeparators (value st))
                  = Some w
                  /\ isNaN (parseFloat w) = false
                  /\ violatesRange props (parseFloat w) = false).
Proof.
cbv zeta. unfold Legacy.handleBlur.
destruct (evaluateFormula props (removeThousandsSeparators (value st)))
  as [w|] eqn:E.
- cbn [isNull]. rewrite andb_false_r.
  destruct (isNaN (parseFloat w)) eqn:P; cbn [orb].
  + repeat split; cbn [In]; intuition discriminate.
  + destruct (Legacy.validateMinMax props (parseFloat w)) eqn:V; cbn [negb].
    * assert (NF : existsb isFocus
                     (SetError false :: formatAndStore props (parseFloat w))
                   = false)
        by (cbn [existsb isFocus orb]; apply formatAndStore_no_focus).
      rewrite NF. split; [|split].
      -- cbn [commit fold_left apply]. fold (commit
           {| value := value st; error := false |}
           (formatAndStore props (parseFloat w))).
         now rewrite (commit_keeps_error _
                        (formatAndStore_sets_no_error props (parseFloat w))).
      -- intros H. discriminate H.
      -- intros v _. exists w. repeat split; auto.
         unfold Legacy.validateMinMax in V. unfold violatesRange.
         now apply negb_true_iff in V.
    * repeat split; cbn [In]; intuition discriminate.
- rewrite (evaluateFormula_null props _ E). cbn [isNull andb].
  repeat split; cbn [In]; intuition discriminate.
Qed.

Example legacy_handleBlur_out_of_range :
  Legacy.handleBlur (num := float) rangeProps
    {| value := str "5"; error := false |}
  = [SetError false; SetError true; Focus].
Proof. vm_compute. reflexivity. Qed.

(** * More on grouping *)

Section Groups.

(** Division by three, spelled out for [lia]. *)
Ltac by_three x :=
  pose proof (Nat.div_mod_eq x 3);
  pose proof (Nat.mod_upper_bound x 3 ltac:(discriminate)).

Lemma wholeGroups_spec n :
  wholeGroups n = true <-> n <> 0 /\ n mod 3 = 0.
Proof.
unfold wholeGroups. rewrite andb_true_iff, Nat.ltb_lt, Nat.eqb_eq. lia.
Qed.

Lemma firstGroupSize_whole n :
  wholeGroups n = true ->
  firstGroupSize n = 3 /\ firstGroupSize (S n) = 1.
Proof.
intros W. apply wholeGroups_spec in W. destruct W as [NZ M].
unfold firstGroupSize.
destruct (Nat.eqb_spec n 0) as [?|_]; [contradiction|].
cbn [Nat.eqb]. replace (S n - 1) with n by lia. rewrite M.
by_three n. by_three (n - 1). lia.
Qed.

Lemma firstGroupSize_partial n :
  wholeGroups n = false ->
  firstGroupSize (S n) = S (firstGroupSize n).
Proof.
intros W. unfold firstGroupSize. cbn [Nat.eqb].
replace (S n - 1) with n by lia.
destruct (Nat.eqb_spec n 0) as [->|NZ]; [reflexivity|].
assert (M : n mod 3 <> 0).
{ intros M. assert (X : wholeGroups n = true)
    by (apply wholeGroups_spec; auto).
  rewrite W in X. discriminate X. }
by_three n. by_three (n - 1). lia.
Qed.

Lemma wholeGroups_firstGroupSize n :
  wholeGroups (firstGroupSize n) = wholeGroups n.
Proof.
destruct (wholeGroups n) eqn:W.
- now rewrite (proj1 (firstGroupSize_whole n W)).
- destruct (wholeGroups (firstGroupSize n)) eqn:F; [|reflexivity].
  apply wholeGroups_spec in F. destruct F as [NZ M].
  assert (X : wholeGroups n = true).
  { apply wholeGroups_spec. unfold firstGroupSize in *.
    destruct (Nat.eqb_spec n 0) as [->|N0]; [contradiction|].
    split; [exact N0|].
    by_three n. by_three (n - 1). by_three ((n - 1) mod 3 + 1). lia. }
  rewrite W in X. discriminate X.
Qed.

Lemma digit_not_space d : isDigit d = true -> (d =? Ch.space)%N = false.
Proof.
intros D. destruct (d =? Ch.space)%N eqn:E; [|reflexivity].
apply N.eqb_eq in E. subst d. discriminate D.
Qed.

(** Cut at its separators, a grouped run of digits is a first group of
    [firstGroupSize] digits and then groups of three. *)
Lemma split_groupFromRight ds :
  Forall (fun c => isDigit c = true) ds ->
  exists first groups,
    split Ch.space (groupFromRight ds) = first :: groups
    /\ List.length first = firstGroupSize (List.length ds)
    /\ Forall (fun g => List.length g = 3) groups
    /\ List.concat (first :: groups) = ds.
Proof.
induction 1 as [|d rest Hd Hrest IH].
- exists [], []. repeat split. constructor.
- destruct IH as (first & groups & S & L & G & C).
  cbn [groupFromRight List.length].
  destruct (wholeGroups (List.length rest)) eqn:W.
  + destruct (firstGroupSize_whole _ W) as [Three One].
    exists [d], (first :: groups). cbn [app split].
    rewrite (digit_not_space d Hd). cbn [N.eqb Ch.space Pos.eqb].
    rewrite S. repeat split.
    * now rewrite One.
    * constructor; [now rewrite L | exact G].
    * cbn [List.concat app] in *. now rewrite C.
  + exists (d :: first), groups. cbn [app split].
    rewrite (digit_not_space d Hd), S. repeat split.
    * cbn [List.length]. now rewrite L, (firstGroupSize_partial _ W).
    * exact G.
    * cbn [List.concat app] in *. now rewrite C.
Qed.

Lemma concat_of_threes (groups : list jsstring) :
  Forall (fun g => List.length g = 3) groups ->
  List.length (List.concat groups) = 3 * List.length groups.
Proof.
induction 1 as [|g rest Hg _ IH]; [reflexivity|].
cbn [List.concat List.length]. rewrite length_app, Hg, IH. lia.
Qed.

(** At the head of a grouped run the pattern sees one or more whole
    groups exactly when the run is made of whole groups. *)
Lemma digitTriples_groupFromRight ds :
  Forall (fun c => isDigit c = true) ds ->
  digitTriples (groupFromRight ds) = wholeGroups (List.length ds).
Proof.
intros D.
destruct (split_groupFromRight ds D) as (first & groups & S & L & G & C).
pose proof (join_split Ch.space (groupFromRight ds)) as J.
rewrite S, join_cons in J. rewrite <- J.
assert (F : Forall (fun c => isDigit c = true) first).
{ rewrite <- C in D. cbn [List.concat] in D. now apply Forall_app in D. }
rewrite (digitTriples_digits (List.length first) first
           (afterFirst Ch.space groups) eq_refl F).
- rewrite L. apply wholeGroups_firstGroupSize.
- now destruct groups.
Qed.

(** The pattern finds nothing to separate inside a grouped run. *)
Lemma replaceGroupBoundaries_grouped ds :
  Forall (fun c => isDigit c = true) ds ->
  forall before,
    replaceGroupBoundaries before (groupFromRight ds)
    = (if wordAt before && wholeGroups (List.length ds)
       then [Ch.space] else [])
      ++ groupFromRight ds.
Proof.
induction 1 as [|d rest Hd Hrest IH]; intros before.
- cbn. unfold patternHolds. cbn. now rewrite !andb_false_r.
- pose proof (digitTriples_groupFromRight (d :: rest)
                (Forall_cons _ Hd Hrest)) as T.
  cbn [groupFromRight] in T |- *.
  cbn [replaceGroupBoundaries].
  unfold patternHolds at 1. cbn [hd_error]. rewrite T.
  unfold nonWordBoundary. cbn [wordAt].
  rewrite (isDigit_isWordChar d Hd).
  replace (Bool.eqb (wordAt before) true) with (wordAt before)
    by (now destruct (wordAt before)).
  f_equal. f_equal.
  destruct (wholeGroups (List.length rest)) eqn:W; cbn [app].
  + cbn [replaceGroupBoundaries].
    replace (patternHolds (Some d) (Ch.space :: groupFromRight rest))
      with false.
    * cbn [app]. f_equal. rewrite (IH (Some Ch.space)). reflexivity.
    * unfold patternHolds. symmetry. apply andb_false_iff. right.
      destruct (digitTriples (Ch.space :: groupFromRight rest)) eqn:E;
        [|reflexivity].
      apply digitTriples_head in E. discriminate E.
  + rewrite (IH (Some d)). now rewrite andb_false_r.
Qed.

(** The grouping of a numeric string, from the lemmas on the pattern. *)
Lemma addThousandsSeparators_numeric sign ds fraction :
  sign = [] \/ sign = [Ch.minus] ->
  Forall (fun c => isDigit c = true) ds ->
  fraction = [] \/ (exists f, fraction = Ch.dot :: f) ->
  addThousandsSeparators (sign ++ ds ++ fraction)
  = sign ++ groupFromRight ds ++ fraction.
Proof.
intros S D F.
assert (P : Forall (fun c => (c =? Ch.dot)%N = false) (sign ++ ds)).
{ apply Forall_app. split; [|now apply digits_without_dot].
  destruct S as [-> | ->]; repeat constructor. }
assert (R : replaceGroupBoundaries None (sign ++ ds)
            = sign ++ groupFromRight ds).
{ destruct S as [-> | ->]; cbn [app].
  - now rewrite (replaceGroupBoundaries_digits ds D).
  - now apply replaceGroupBoundaries_sign. }
destruct (addThousandsSeparators_integer_part _ P) as [Whole Parts].
destruct F as [-> | [f ->]].
- rewrite !app_nil_r. now rewrite Whole, R.
- rewrite app_assoc, Parts, R. now rewrite <- app_assoc.
Qed.

Lemma groupFromRight_without_dot ds :
  Forall (fun c => isDigit c = true) ds ->
  Forall (fun c => (c =? Ch.dot)%N = false) (groupFromRight ds).
Proof.
induction 1 as [|d rest Hd Hrest IH]; [constructor|].
cbn [groupFromRight]. constructor.
- destruct (d =? Ch.dot)%N eqn:E; [|reflexivity].
  apply N.eqb_eq in E. subst d. discriminate Hd.
- apply Forall_app. split; [|exact IH].
  destruct (wholeGroups (List.length rest)); repeat constructor.
Qed.

End Groups.

(** X20: formatting is idempotent on numeric strings without any removal
    in between: applied to its own output, [addThousandsSeparators]
    inserts no further separator. *)
Theorem addThousandsSeparators_idempotent (sign ds fraction : jsstring) :
  sign = [] \/ sign = [Ch.minus] ->
  Forall (fun c => isDigit c = true) ds ->
  fraction = [] \/ (exists f, fraction = Ch.dot :: f) ->
  addThousandsSeparators (addThousandsSeparators (sign ++ ds ++ fraction))
  = addThousandsSeparators (sign ++ ds ++ fraction).
Proof.
intros S D F.
rewrite (addThousandsSeparators_numeric sign ds fraction S D F).
assert (P : Forall (fun c => (c =? Ch.dot)%N = false)
              (sign ++ groupFromRight ds)).
{ apply Forall_app. split; [|now apply groupFromRight_without_dot].
  destruct S as [-> | ->]; repeat constructor. }
assert (R : replaceGroupBoundaries None (sign ++ groupFromRight ds)
            = sign ++ groupFromRight ds).
{ destruct S as [-> | ->]; cbn [app].
  - now rewrite (replaceGroupBoundaries_grouped ds D).
  - cbn [replaceGroupBoundaries].
    rewrite (replaceGroupBoundaries_grouped ds D). cbn [wordAt].
    replace (patternHolds None (Ch.minus :: groupFromRight ds)) with false;
      [reflexivity|].
    unfold patternHolds. symmetry. apply andb_false_iff. right.
    destruct (digitTriples (Ch.minus :: groupFromRight ds)) eqn:E;
      [|reflexivity].
    apply digitTriples_head in E. discriminate E. }
destruct (addThousandsSeparators_integer_part _ P) as [Whole Parts].
destruct F as [-> | [f ->]].
- rewrite !app_nil_r. now rewrite Whole, R.
- rewrite app_assoc, Parts, R. now rewrite <- app_assoc.
Qed.

Lemma addThousandsSeparators_idempotent_witness :
  addThousandsSeparators (addThousandsSeparators (str "-1234567.50"))
  = addThousandsSeparators (str "-1234567.50").
Proof.
apply (addThousandsSeparators_idempotent [Ch.minus] (str "1234567")
         (str ".50")).
- right. reflexivity.
- repeat constructor.
- right. exists (str "50"). reflexivity.
Defined.

(** X21: cut at the separators, the formatting of a run of [n] digits
    ([n] at least 1) is a first group of one to three digits followed by
    [(n - 1) / 3] groups of exactly three digits, and the groups put
    together are the digits that went in. *)
Theorem addThousandsSeparators_groups_of_three (ds : jsstring) :
  ds <> [] ->
  Forall (fun c => isDigit c = true) ds ->
  exists first groups,
    split Ch.space (addThousandsSeparators ds) = first :: groups
    /\ 1 <= List.length first <= 3
    /\ Forall (fun g => List.length g = 3) groups
    /\ List.length groups = (List.length ds - 1) / 3
    /\ List.concat (first :: groups) = ds.
Proof.
intros NE D.
pose proof (addThousandsSeparators_numeric [] ds [] (or_introl eq_refl) D
              (or_introl eq_refl)) as A.
cbn [app] in A. rewrite !app_nil_r in A. rewrite A.
destruct (split_groupFromRight ds D) as (first & groups & S & L & G & C).
exists first, groups.
assert (N : List.length ds <> 0) by (destruct ds; [contradiction|discriminate]).
assert (Sum : List.length ds = List.length first + 3 * List.length groups).
{ rewrite <- C at 1. cbn [List.concat]. rewrite length_app.
  now rewrite (concat_of_threes groups G). }
unfold firstGroupSize in L.
destruct (Nat.eqb_spec (List.length ds) 0) as [?|_]; [contradiction|].
pose proof (Nat.div_mod_eq (List.length ds - 1) 3) as E1.
pose proof (Nat.mod_upper_bound (List.length ds - 1) 3 ltac:(discriminate))
  as E2.
repeat split; try assumption; try lia.
Qed.

Lemma addThousandsSeparators_groups_of_three_witness :
  exists first groups,
    split Ch.space (addThousandsSeparators (str "1234567")) = first :: groups
    /\ 1 <= List.length first <= 3
    /\ Forall (fun g => List.length g = 3) groups
    /\ List.length groups = (List.length (str "1234567") - 1) / 3
    /\ List.concat (first :: groups) = str "1234567".
Proof.
apply (addThousandsSeparators_groups_of_three (str "1234567")).
- discriminate.
- repeat constructor.
Defined.

(** X22: on text that parses to a number inside the range the two
    revisions of the field commit alike: the same buffer and error flag
    afterwards, the same calls apart from the extra [setError] of the
    later revision. They part only on failures. *)
Theorem handleBlur_revisions_agree_on_valid_text
  {num : Type} {JS : JSNumber num} {MJ : MathJS num}
  {Laws : JSNumberLaws num}
  (props : Props) (st : State) (w : jsstring) :
  value st <> [] ->
  evaluateFormula props (removeThousandsSeparators (value st)) = Some w ->
  isNaN (parseFloat w) = false ->
  violatesRange props (parseFloat w) = false ->
  commit st (handleBlur props st) = commit st (Legacy.handleBlur props st)
  /\ filter (fun a => negb (setsError a)) (handleBlur props st)
     = filter (fun a => negb (setsError a)) (Legacy.handleBlur props st).
Proof.
intros NE E P V.
rewrite (handleBlur_evaluated props st w NE E).
rewrite outOfRange_violatesRange, V.
unfold Legacy.handleBlur. rewrite E. cbn [isNull].
rewrite andb_false_r, P. cbn [orb].
replace (Legacy.validateMinMax props (parseFloat w)) with true
  by (unfold Legacy.validateMinMax; unfold violatesRange in V;
      now rewrite V).
cbn [negb]. split; reflexivity.
Qed.

Lemma handleBlur_revisions_agree_on_valid_text_witness :
  let st := {| value := str "12.5"; error := true |} in
  commit st (handleBlur (num := float) rangeProps st)
  = commit st (Legacy.handleBlur (num := float) rangeProps st)
  /\ filter (fun a => negb (setsError a))
       (handleBlur (num := float) rangeProps st)
     = filter (fun a => negb (setsError a))
         (Legacy.handleBlur (num := float) rangeProps st).
Proof.
apply (handleBlur_revisions_agree_on_valid_text (num := float) rangeProps
         {| value := str "12.5"; error := true |} (str "12.5")).
- discriminate.
- reflexivity.
- vm_compute. reflexivity.
- vm_compute. reflexivity.
Defined.
